(** * Network tracer (pkg/ebpf, unsupported-platform build) and EC2 hostname
    helpers (pkg/util/ec2): a shallow embedding and its properties.

  Go values are embedded as follows.
  - [string] is a Go string, a sequence of bytes.
  - [int64], [uint32] and timestamps are [Z].
  - A pointer [*T] is [option T]: [None] is [nil], [Some v] a pointer to [v].
  - A result [(r, err)] is a pair whose second component is [option error];
    [None] is the [nil] error.
  - A method with a pointer receiver takes the receiver and returns, next
    to its results, the receiver as the call leaves it. *)

From Stdlib Require Import ZArith List Bool String Ascii Lia.
Import ListNotations.

Local Open Scope Z_scope.

(* ================================================================== *)
(** ** Data model shared by the tracer                                 *)
(* ================================================================== *)

Module Model.

(** Modelled from the spec: the protocol of a tuple, "protocol {TCP, UDP}"
    (section 3); the Go type is not among the sources. *)
Inductive Protocol := TCP | UDP.

(** Modelled from the spec: "direction (inbound/outbound)" (section 3);
    the Go type is not among the sources. *)
Inductive Direction := Inbound | Outbound.

(** Modelled from the spec: the connection tuple (glossary, "Tuple");
    the Go type is declared in a file of package ebpf that is not among
    the sources.  Addresses and ports are numbers. *)
Record Tuple := mkTuple {
  laddr : Z;
  lport : Z;
  raddr : Z;
  rport : Z;
  proto : Protocol
}.

(** Modelled from the spec: [ConnectionStats] (section 3), declared in a
    file of package ebpf that is not among the sources: identity (tuple
    and owning pid), counters, metadata. *)
Record ConnectionStats := mkConnectionStats {
  cs_tuple : Tuple;
  cs_pid : Z;
  bytesSent : Z;
  bytesReceived : Z;
  retransmits : Z;
  direction : Direction;
  lastUpdated : Z;
  closed : bool
}.

(** Modelled from the spec: [ConnectionFilter] (section 3), one match
    rule "address/CIDR + port pattern"; the Go type is not among the
    sources.  [None] as port pattern stands for any port. *)
Record ConnectionFilter := mkConnectionFilter {
  filterNet : Z;
  filterMask : Z;
  filterPort : option Z
}.

(** Modelled from the spec: [PortMapping] (section 3), "mapping from
    (namespace, internal port) to externally-visible port"; the Go type
    is not among the sources. *)
Definition PortMapping := list ((Z * Z) * Z).

(** Modelled from the spec: [Config] (section 6, configuration
    boundary): exclusion rules, staleness threshold and capacity of the
    bounded buffer; the Go type is not among the sources. *)
Record Config := mkConfig {
  cfgSourceExcludes : list ConnectionFilter;
  cfgDestExcludes : list ConnectionFilter;
  stalenessThreshold : Z;
  bufferCapacity : nat
}.

(** Modelled from the spec: [Connections], the payload of a snapshot;
    the Go type is not among the sources. *)
Record Connections := mkConnections {
  Conns : list ConnectionStats
}.

(** [map[string]interface{}] as returned by GetStats and
    DebugNetworkState: names bound to counters. *)
Definition StatsMap := list (string * Z).

(** Modelled from the spec: the failures surfaced to callers (section 7).
    [ErrNotImplemented] is the package variable the stub returns, declared
    in a file of package ebpf that is not among the sources; [ErrStopped]
    is the spec's "stopped-engine error". *)
Inductive error := ErrNotImplemented | ErrStopped.

End Model.

(* ================================================================== *)
(** ** src/unnamed/part_000: the tracer on a platform without kernel
     instrumentation                                                  *)
(* ================================================================== *)

Module Ebpf.
Import Model.

(** [func CurrentKernelVersion() (uint32, error)] *)
Definition CurrentKernelVersion : Z * option error := (1, None).

(** [type Tracer struct]; [sync.Mutex] is its locked flag, slices are
    lists, pointers are options. *)
Record Tracer := mkTracer {
  config : option Config;
  portMapping : option PortMapping;
  perfReceived : Z;
  perfLost : Z;
  skippedConns : Z;
  pidCollisions : Z;
  expiredTCPConns : Z;
  buffer : list ConnectionStats;
  bufferLock : bool;
  sourceExcludes : list (option ConnectionFilter);
  destExcludes : list (option ConnectionFilter)
}.

(** The zero value [Tracer{}]. *)
Definition zeroTracer : Tracer :=
  {| config := None;
     portMapping := None;
     perfReceived := 0;
     perfLost := 0;
     skippedConns := 0;
     pidCollisions := 0;
     expiredTCPConns := 0;
     buffer := [];
     bufferLock := false;
     sourceExcludes := [];
     destExcludes := [] |}.

(** [func NewTracer(config *Config)], returning [*Tracer, error]. *)
Definition NewTracer (config : option Config) : option Tracer * option error :=
  (Some zeroTracer, None).

(** [func (t *Tracer) Stop()]: the body is empty. *)
Definition Stop (t : option Tracer) : unit * option Tracer := (tt, t).

(** [func (t *Tracer) GetActiveConnections(_ string)], returning
    [*Connections, error]. *)
Definition GetActiveConnections (t : option Tracer) (_ : string)
  : (option Connections * option error) * option Tracer :=
  ((None, Some ErrNotImplemented), t).

(** [func (t *Tracer) GetStats() (map[string]interface{}, error)] *)
Definition GetStats (t : option Tracer)
  : (option StatsMap * option error) * option Tracer :=
  ((None, Some ErrNotImplemented), t).

(** [func (t *Tracer) DebugNetworkState(clientID string) (map[string]interface{}, error)] *)
Definition DebugNetworkState (t : option Tracer) (clientID : string)
  : (option StatsMap * option error) * option Tracer :=
  ((None, Some ErrNotImplemented), t).

(** [func (t *Tracer) DebugNetworkMaps()], returning [*Connections, error]. *)
Definition DebugNetworkMaps (t : option Tracer)
  : (option Connections * option error) * option Tracer :=
  ((None, Some ErrNotImplemented), t).

(** The four query methods behind one entry point, for statements that
    range over "every query method". *)
Inductive Query :=
| QGetActiveConnections (clientID : string)
| QGetStats
| QDebugNetworkState (clientID : string)
| QDebugNetworkMaps.

Inductive Reply :=
| RConnections (r : option Connections)
| RStats (r : option StatsMap).

Definition call (q : Query) (t : option Tracer)
  : (Reply * option error) * option Tracer :=
  match q with
  | QGetActiveConnections c =>
      let '((r, e), t') := GetActiveConnections t c in ((RConnections r, e), t')
  | QGetStats =>
      let '((r, e), t') := GetStats t in ((RStats r, e), t')
  | QDebugNetworkState c =>
      let '((r, e), t') := DebugNetworkState t c in ((RStats r, e), t')
  | QDebugNetworkMaps =>
      let '((r, e), t') := DebugNetworkMaps t in ((RConnections r, e), t')
  end.

(** A reply that carries no data at all: the [nil] pointer or map. *)
Definition isNil (r : Reply) : bool :=
  match r with
  | RConnections None | RStats None => true
  | _ => false
  end.

End Ebpf.

(* ================================================================== *)
(** ** src/pkg/util/ec2/ec2.go: default hostnames                      *)
(* ================================================================== *)

Module Ec2.

Local Open Scope string_scope.

Definition oldDefaultPrefixes : list string := ["ip-"; "domu"].
Definition defaultPrefixes : list string := ["ip-"; "domu"; "ec2amaz-"].

(** [strings.HasPrefix]:
    [len(s) >= len(prefix) && s[0:len(prefix)] == prefix]. *)
Definition HasPrefix (s prefix : string) : bool :=
  (String.length prefix <=? String.length s)%nat
  && String.eqb (substring 0 (String.length prefix) s) prefix.

Definition isUpper (c : ascii) : bool :=
  ((65 <=? nat_of_ascii c) && (nat_of_ascii c <=? 90))%nat.

(** [c += 'a' - 'A'] on an upper-case byte. *)
Definition lowerByte (c : ascii) : ascii :=
  if isUpper c then ascii_of_nat (nat_of_ascii c + 32) else c.

Fixpoint isASCII (s : string) : bool :=
  match s with
  | EmptyString => true
  | String c s' => (nat_of_ascii c <? 128)%nat && isASCII s'
  end.

Fixpoint hasUpper (s : string) : bool :=
  match s with
  | EmptyString => false
  | String c s' => isUpper c || hasUpper s'
  end.

Fixpoint lowerBytes (s : string) : string :=
  match s with
  | EmptyString => EmptyString
  | String c s' => String (lowerByte c) (lowerBytes s')
  end.

Section WithUnicode.

(** [strings.Map(unicode.ToLower, s)], the path [strings.ToLower] takes
    for a string with a byte outside ASCII; it belongs to the Go
    library and its Unicode tables, so it is a parameter here. *)
Variable unicodeToLower : string -> string.

(** [strings.ToLower]: ASCII-only strings are lowered byte by byte (and
    returned as they are when they have no upper-case letter). *)
Definition ToLower (s : string) : string :=
  if isASCII s then
    if hasUpper s then lowerBytes s else s
  else unicodeToLower s.

(** [func isDefaultHostname(hostname string, useWindowsPrefix bool) bool] *)
Definition isDefaultHostname (hostname : string) (useWindowsPrefix : bool) : bool :=
  let hostname := ToLower hostname in
  let prefixes := if useWindowsPrefix then defaultPrefixes else oldDefaultPrefixes in
  fold_left (fun isDefault val => isDefault || HasPrefix hostname val) prefixes false.

(** [func IsDefaultHostname(hostname string) bool]; the argument
    [useWindowsPrefixDetection] is what
    [config.Datadog.GetBool("ec2_use_windows_prefix_detection")] reads. *)
Definition IsDefaultHostname (useWindowsPrefixDetection : bool) (hostname : string) : bool :=
  isDefaultHostname hostname useWindowsPrefixDetection.

(** [func IsDefaultHostnameForIntake(hostname string) bool] *)
Definition IsDefaultHostnameForIntake (hostname : string) : bool :=
  isDefaultHostname hostname false.

(** [func IsWindowsDefaultHostname(hostname string) bool] *)
Definition IsWindowsDefaultHostname (hostname : string) : bool :=
  negb (isDefaultHostname hostname false) && isDefaultHostname hostname true.

End WithUnicode.

End Ec2.


(* ================================================================== *)
(** ** The kernel-backed engine: connection table, bounded buffer and
     event consumer.  Its Go code is not among the sources (part_000 is
     the build for platforms without kernel instrumentation and only
     declares the state), so this part follows sections 3 and 4 of the
     specification.                                                    *)
(* ================================================================== *)

Module Engine.
Import Model Ebpf.

Definition proto_eqb (a b : Protocol) : bool :=
  match a, b with
  | TCP, TCP | UDP, UDP => true
  | _, _ => false
  end.

Definition tuple_eqb (a b : Tuple) : bool :=
  (laddr a =? laddr b) && (lport a =? lport b) &&
  (raddr a =? raddr b) && (rport a =? rport b) &&
  proto_eqb (proto a) (proto b).

(** Modelled from the spec: the identity of a connection, "tuple + pid"
    (section 3); no Go declaration of it is among the sources. *)
Definition Identity : Type := Tuple * Z.

Definition identity (c : ConnectionStats) : Identity := (cs_tuple c, cs_pid c).

Definition identity_eqb (a b : Identity) : bool :=
  tuple_eqb (fst a) (fst b) && (snd a =? snd b).

Definition hasIdentity (id : Identity) (c : ConnectionStats) : bool :=
  identity_eqb (identity c) id.

Definition hasTuple (t : Tuple) (c : ConnectionStats) : bool :=
  tuple_eqb (cs_tuple c) t.

(** Modelled from the spec: the "byte/retransmit deltas" an event record
    carries (section 4.2); the record schema is not among the sources. *)
Record Delta := mkDelta {
  dSent : Z;
  dReceived : Z;
  dRetransmits : Z
}.

(** Modelled from the spec: the kind of an event record, "{open,
    stats-update, close}" (section 4.2); not among the sources. *)
Inductive EventKind := Open | StatsUpdate | Close.

(** Modelled from the spec: one decoded record of the kernel event stream,
    "tuple, pid, event kind {open, stats-update, close}, byte/retransmit
    deltas" (section 4.2); the record schema is not among the sources. *)
Record Event := mkEvent {
  evTuple : Tuple;
  evPid : Z;
  evKind : EventKind;
  evDelta : Delta
}.

(** Modelled from the spec: a record as read from the stream, which may
    fail to decode (section 4.2, step 1); the decoder is not among the
    sources. *)
Inductive RawRecord := Malformed | WellFormed (e : Event).

Definition decode (r : RawRecord) : option Event :=
  match r with
  | Malformed => None
  | WellFormed e => Some e
  end.

(** Modelled from the spec: the state of the running engine, the tracer's
    fields of part_000 together with the active connection table, which
    the stub's struct does not hold and whose Go code is not among the
    sources. *)
Record Engine := mkEngine {
  tracer : Tracer;
  active : list ConnectionStats
}.

(** Field updates of [Tracer]. *)
Definition setPerfReceived (v : Z) (t : Tracer) : Tracer :=
  mkTracer (config t) (portMapping t) v (perfLost t) (skippedConns t)
    (pidCollisions t) (expiredTCPConns t) (buffer t) (bufferLock t)
    (sourceExcludes t) (destExcludes t).

Definition setPerfLost (v : Z) (t : Tracer) : Tracer :=
  mkTracer (config t) (portMapping t) (perfReceived t) v (skippedConns t)
    (pidCollisions t) (expiredTCPConns t) (buffer t) (bufferLock t)
    (sourceExcludes t) (destExcludes t).

Definition setSkippedConns (v : Z) (t : Tracer) : Tracer :=
  mkTracer (config t) (portMapping t) (perfReceived t) (perfLost t) v
    (pidCollisions t) (expiredTCPConns t) (buffer t) (bufferLock t)
    (sourceExcludes t) (destExcludes t).

Definition setPidCollisions (v : Z) (t : Tracer) : Tracer :=
  mkTracer (config t) (portMapping t) (perfReceived t) (perfLost t)
    (skippedConns t) v (expiredTCPConns t) (buffer t) (bufferLock t)
    (sourceExcludes t) (destExcludes t).

Definition setExpiredTCPConns (v : Z) (t : Tracer) : Tracer :=
  mkTracer (config t) (portMapping t) (perfReceived t) (perfLost t)
    (skippedConns t) (pidCollisions t) v (buffer t) (bufferLock t)
    (sourceExcludes t) (destExcludes t).

Definition setBuffer (v : list ConnectionStats) (t : Tracer) : Tracer :=
  mkTracer (config t) (portMapping t) (perfReceived t) (perfLost t)
    (skippedConns t) (pidCollisions t) (expiredTCPConns t) v (bufferLock t)
    (sourceExcludes t) (destExcludes t).

Definition onTracer (f : Tracer -> Tracer) (s : Engine) : Engine :=
  mkEngine (f (tracer s)) (active s).

Definition setActive (tbl : list ConnectionStats) (s : Engine) : Engine :=
  mkEngine (tracer s) tbl.

(** *** Bounded buffer *)

(** Modelled from the spec: append to the bounded buffer, "fixed-capacity
    sequence ...; overflow policy is overwrite-oldest" (sections 3, 4.2);
    the Go code is not among the sources.  The oldest entry is the head.
    A buffer of capacity zero retains nothing. *)
Definition bufferAppend (capacity : nat) (buf : list ConnectionStats)
  (c : ConnectionStats) : list ConnectionStats :=
  if (List.length buf <? capacity)%nat then buf ++ [c]
  else match buf with
       | [] => []
       | _oldest :: newer => newer ++ [c]
       end.

(** *** Connection table (section 4.1) *)

Section Collaborators.

(** Modelled from the spec: the membership test of one filter rule against
    an address and a port (section 4.5); neither the rule syntax nor the
    test is among the sources, so the test is a parameter. *)
Variable filterMatches : ConnectionFilter -> Z -> Z -> bool.

(** Modelled from the spec: the Port Resolver (section 4.4), "given a tuple
    with a namespace-local port, return the externally-routable port, or
    the same port unchanged"; not among the sources, so a parameter. *)
Variable resolvePorts : PortMapping -> Tuple -> Tuple.

(** Modelled from the spec: the direction recorded with a new connection
    (section 3, metadata); how it is found is not in the spec nor among
    the sources, so a parameter. *)
Variable directionOf : Tuple -> Direction.

(** Modelled from the spec: the entry "created on the first observed event
    for a tuple+pid" (section 3, lifecycle), whose counters are the deltas
    of that event; the Go code is not among the sources. *)
Definition fresh (id : Identity) (d : Delta) (now : Z) : ConnectionStats :=
  {| cs_tuple := fst id;
     cs_pid := snd id;
     bytesSent := dSent d;
     bytesReceived := dReceived d;
     retransmits := dRetransmits d;
     direction := directionOf (fst id);
     lastUpdated := now;
     closed := false |}.

(** Modelled from the spec: an entry "mutated in place by subsequent events
    for the same identity" (section 3, lifecycle): the deltas are added to
    its counters; the Go code is not among the sources. *)
Definition applyDelta (d : Delta) (now : Z) (c : ConnectionStats) : ConnectionStats :=
  {| cs_tuple := cs_tuple c;
     cs_pid := cs_pid c;
     bytesSent := bytesSent c + dSent d;
     bytesReceived := bytesReceived c + dReceived d;
     retransmits := retransmits c + dRetransmits d;
     direction := direction c;
     lastUpdated := now;
     closed := closed c |}.

(** Modelled from the spec: [upsert(identity, delta)] (section 4.1),
    "creates-or-updates a ConnectionStats under a single logical identity";
    "on an identity collision (same tuple, different pid) increments the
    pid-collision counter and replaces ownership".  The Go code is not
    among the sources.  The boolean tells the caller of a collision. *)
Definition upsert (id : Identity) (d : Delta) (now : Z)
  (tbl : list ConnectionStats) : list ConnectionStats * bool :=
  if existsb (hasIdentity id) tbl then
    (map (fun c => if hasIdentity id c then applyDelta d now c else c) tbl, false)
  else if existsb (hasTuple (fst id)) tbl then
    (filter (fun c => negb (hasTuple (fst id) c)) tbl ++ [fresh id d now], true)
  else
    (tbl ++ [fresh id d now], false).

(** Modelled from the spec: [remove(identity) -> ConnectionStats]
    (section 4.1), "deletes and returns the entry"; for an identity that is
    not in the table there is nothing to return (section 6).  The Go code
    is not among the sources. *)
Definition remove (id : Identity) (tbl : list ConnectionStats)
  : option ConnectionStats * list ConnectionStats :=
  match find (hasIdentity id) tbl with
  | Some c => (Some c, filter (fun c' => negb (hasIdentity id c')) tbl)
  | None => (None, tbl)
  end.

(** Modelled from the spec: [snapshot()] (section 4.1), a non-mutating
    view of the table. *)
Definition snapshot (tbl : list ConnectionStats) : list ConnectionStats := tbl.

(** *** Event consumer (section 4.2) and expiration sweeper (section 4.3) *)

(** Modelled from the spec: one rule of an exclusion list tried against an
    address and a port (section 4.5); a nil rule matches nothing.  The Go
    code is not among the sources. *)
Definition ruleMatches (addr port : Z) (f : option ConnectionFilter) : bool :=
  match f with
  | Some r => filterMatches r addr port
  | None => false
  end.

(** Modelled from the spec: the Connection Filter (section 4.5), "a
    connection is dropped if it matches either list". *)
Definition excluded (t : Tracer) (tu : Tuple) : bool :=
  existsb (ruleMatches (laddr tu) (lport tu)) (sourceExcludes t)
  || existsb (ruleMatches (raddr tu) (rport tu)) (destExcludes t).

(** Modelled from the spec: step 3 of the consumer (section 4.2), the
    tuple as the Port Resolver rewrites it with the tracer's mapping; the
    Go code is not among the sources. *)
Definition resolve (t : Tracer) (tu : Tuple) : Tuple :=
  match portMapping t with
  | Some pm => resolvePorts pm tu
  | None => tu
  end.

(** Modelled from the spec: the identity under which an event reaches the
    table (section 4.2, steps 3 and 4): its tuple after port resolution,
    and its pid. *)
Definition eventIdentity (t : Tracer) (e : Event) : Identity :=
  (resolve t (evTuple e), evPid e).

(** Modelled from the spec: the capacity of the bounded buffer, "supplied
    at construction" in the configuration (section 6). *)
Definition capacity (t : Tracer) : nat :=
  match config t with
  | Some c => bufferCapacity c
  | None => 0%nat
  end.

(** Modelled from the spec: the staleness threshold, "supplied at
    construction" in the configuration (section 6). *)
Definition threshold (t : Tracer) : Z :=
  match config t with
  | Some c => stalenessThreshold c
  | None => 0
  end.

(** Modelled from the spec: the "closed flag" of a connection (section 3),
    set when it leaves the table. *)
Definition markClosed (c : ConnectionStats) : ConnectionStats :=
  {| cs_tuple := cs_tuple c;
     cs_pid := cs_pid c;
     bytesSent := bytesSent c;
     bytesReceived := bytesReceived c;
     retransmits := retransmits c;
     direction := direction c;
     lastUpdated := lastUpdated c;
     closed := true |}.

(** Modelled from the spec: a connection removed from the table "is
    appended to the Bounded Buffer" (section 3, lifecycle); the Go code is
    not among the sources. *)
Definition retire (t : Tracer) (c : ConnectionStats) : Tracer :=
  setBuffer (bufferAppend (capacity t) (buffer t) (markClosed c)) t.

(** Modelled from the spec: the processing of one record of the stream
    (section 4.2, steps 1 to 4) at clock reading [now]; the Go code is not
    among the sources.  A record that fails to decode is counted as lost
    and dropped; a decoded one is counted as received "regardless of filter
    outcome".  The telemetry counters are "monotonic" (section 3), so an
    increment is plain addition on [Z]. *)
Definition consume (now : Z) (r : RawRecord) (s : Engine) : Engine :=
  match decode r with
  | None => onTracer (fun t => setPerfLost (perfLost t + 1) t) s
  | Some e =>
      let s := onTracer (fun t => setPerfReceived (perfReceived t + 1) t) s in
      if excluded (tracer s) (evTuple e) then
        onTracer (fun t => setSkippedConns (skippedConns t + 1) t) s
      else
        let id := eventIdentity (tracer s) e in
        match evKind e with
        | Close =>
            match remove id (active s) with
            | (Some c, tbl) => mkEngine (retire (tracer s) c) tbl
            | (None, _) => s
            end
        | Open | StatsUpdate =>
            let '(tbl, collision) := upsert id (evDelta e) now (active s) in
            let s := setActive tbl s in
            if collision then
              onTracer (fun t => setPidCollisions (pidCollisions t + 1) t) s
            else s
        end
  end.

(** Modelled from the spec: an entry "whose last-updated timestamp exceeds
    a configured staleness threshold" (section 4.3), read as idle time
    above the threshold. *)
Definition stale (t : Tracer) (now : Z) (c : ConnectionStats) : bool :=
  threshold t <? now - lastUpdated c.

(** Modelled from the spec: one pass of the Expiration Sweeper
    (section 4.3) at clock reading [now]; the Go code is not among the
    sources. *)
Definition sweep (now : Z) (s : Engine) : Engine :=
  let '(dead, live) := partition (stale (tracer s) now) (active s) in
  let t := fold_left retire dead (tracer s) in
  mkEngine (setExpiredTCPConns (expiredTCPConns t + Z.of_nat (List.length dead)) t) live.

(** Modelled from the spec: what drives the engine (section 2, data flow):
    a record arriving on the stream, or the sweeper's timer firing, each
    with the clock reading of that moment. *)
Inductive Input :=
| Perf (now : Z) (r : RawRecord)
| Tick (now : Z).

(** Modelled from the spec: the engine's reaction to one input. *)
Definition step (s : Engine) (i : Input) : Engine :=
  match i with
  | Perf now r => consume now r s
  | Tick now => sweep now s
  end.

(** Modelled from the spec: the engine fed a sequence of inputs, in order. *)
Definition run (inputs : list Input) (s : Engine) : Engine :=
  fold_left step inputs s.

End Collaborators.

(** Modelled from the spec: construction of the engine (section 6), with
    exclusion rules, staleness threshold and buffer capacity "all supplied
    at construction", an empty table and zeroed telemetry. *)
Definition NewEngine (cfg : Config) (pm : PortMapping) : Engine :=
  {| tracer :=
       {| config := Some cfg;
          portMapping := Some pm;
          perfReceived := 0;
          perfLost := 0;
          skippedConns := 0;
          pidCollisions := 0;
          expiredTCPConns := 0;
          buffer := [];
          bufferLock := false;
          sourceExcludes := map Some (cfgSourceExcludes cfg);
          destExcludes := map Some (cfgDestExcludes cfg) |};
     active := [] |}.

(** The table holds no two entries of one identity. *)
Definition uniqueIdentities (tbl : list ConnectionStats) : Prop :=
  NoDup (map identity tbl).

(** The table holds no two entries of one tuple. *)
Definition uniqueTuples (tbl : list ConnectionStats) : Prop :=
  NoDup (map cs_tuple tbl).

(** The part of the tracer fixed at construction. *)
Definition setup (t : Tracer)
  : option Config * option PortMapping
    * list (option ConnectionFilter) * list (option ConnectionFilter) :=
  (config t, portMapping t, sourceExcludes t, destExcludes t).

(** The buffer holds no more entries than the configured capacity. *)
Definition withinCapacity (t : Tracer) : Prop :=
  (List.length (buffer t) <= capacity t)%nat.

(** What every reachable state of the engine satisfies. *)
Definition invariant (s : Engine) : Prop :=
  uniqueIdentities (active s) /\ uniqueTuples (active s)
  /\ withinCapacity (tracer s).

(** Sample collaborators and data for concrete runs. *)
Definition cidrMatches (f : ConnectionFilter) (addr port : Z) : bool :=
  (Z.land addr (filterMask f) =? Z.land (filterNet f) (filterMask f))
  && match filterPort f with
     | Some p => port =? p
     | None => true
     end.

Definition noTranslation (_ : PortMapping) (tu : Tuple) : Tuple := tu.

Definition byLocalPort (tu : Tuple) : Direction :=
  if lport tu <? 1024 then Inbound else Outbound.

Definition sampleConfig : Config :=
  {| cfgSourceExcludes := [];
     cfgDestExcludes := [ {| filterNet := 127; filterMask := 255; filterPort := Some 53 |} ];
     stalenessThreshold := 120;
     bufferCapacity := 2 |}.

(** The tuple A:1234 -> B:80 of the spec's scenarios. *)
Definition tupleAB : Tuple :=
  {| laddr := 10; lport := 1234; raddr := 20; rport := 80; proto := TCP |}.

Definition sampleEvent (pid : Z) (k : EventKind) (sent : Z) : Event :=
  {| evTuple := tupleAB; evPid := pid; evKind := k;
     evDelta := {| dSent := sent; dReceived := 0; dRetransmits := 0 |} |}.

Definition sampleEngine : Engine := NewEngine sampleConfig [].

Definition sampleRun (inputs : list Input) : Engine :=
  run cidrMatches noTranslation byLocalPort inputs sampleEngine.

Definition sampleClosed (pid : Z) : ConnectionStats :=
  {| cs_tuple := tupleAB; cs_pid := pid; bytesSent := 0; bytesReceived := 0;
     retransmits := 0; direction := Outbound; lastUpdated := 0; closed := true |}.

End Engine.



(* ================================================================== *)
(** ** src/pkg/util/ec2/ec2.go: cluster name from the instance tags    *)
(* ================================================================== *)

From Stdlib Require Import DecimalString.

Module GoStrings.

Local Open Scope string_scope.

(** [strings.Split(s, sep)] for a separator of one byte, which is how the
    sources call it (":", "/" and a line feed): the pieces of [s] between
    the occurrences of the separator, in order; a string without the
    separator is its own single piece. *)
Fixpoint Split (s : string) (sep : ascii) : list string :=
  match s with
  | EmptyString => [EmptyString]
  | String c s' =>
      if Ascii.eqb c sep then EmptyString :: Split s' sep
      else match Split s' sep with
           | piece :: pieces => String c piece :: pieces
           | [] => [String c EmptyString]
           end
  end.

(** [strings.HasSuffix]:
    [len(s) >= len(suffix) && s[len(s)-len(suffix):] == suffix]. *)
Definition HasSuffix (s suffix : string) : bool :=
  (String.length suffix <=? String.length s)%nat
  && String.eqb
       (substring (String.length s - String.length suffix)
          (String.length suffix) s)
       suffix.

(** [strings.TrimSuffix]. *)
Definition TrimSuffix (s suffix : string) : string :=
  if HasSuffix s suffix
  then substring 0 (String.length s - String.length suffix) s
  else s.

(** The verbs [%d] and [%v] of package fmt on an integer. *)
Definition fmtInt (z : Z) : string := NilZero.string_of_int (Z.to_int z).

(** A byte occurs in a string. *)
Fixpoint contains (c : ascii) (s : string) : bool :=
  match s with
  | EmptyString => false
  | String a s' => Ascii.eqb a c || contains c s'
  end.

End GoStrings.

Module Ec2Tags.
Import GoStrings.

Local Open Scope string_scope.

(** A Go error is embedded as its message. *)
Definition error : Type := string.

(** What a call comes to: it returns, or it panics (an index out of range,
    a nil pointer dereferenced, a failed type assertion). *)
Inductive Result (A : Type) : Type :=
| Returns (a : A)
| Panics.
Arguments Returns {A} a.
Arguments Panics {A}.

Definition clusterTagPrefix : string := "kubernetes.io/cluster/".

(** The loop of [extractClusterName]: the value of [clusterName] when the
    loop is left.  [strings.Split(tag, ":")[0]] and
    [strings.Split(key, "/")[2]] index a slice, which panics out of range. *)
Fixpoint clusterNameOf (tags : list string) : Result string :=
  match tags with
  | [] => Returns ""
  | tag :: rest =>
      if Ec2.HasPrefix tag clusterTagPrefix then
        match nth_error (Split tag ":") 0 with
        | None => Panics
        | Some key =>
            match nth_error (Split key "/") 2 with
            | None => Panics
            | Some clusterName => Returns clusterName
            end
        end
      else clusterNameOf rest
  end.

(** [func extractClusterName(tags []string) (string, error)] *)
Definition extractClusterName (tags : list string)
  : Result (string * option error) :=
  match clusterNameOf tags with
  | Panics => Panics
  | Returns clusterName =>
      if String.eqb clusterName "" then
        Returns ("", Some "unable to parse cluster name from EC2 tags")
      else Returns (clusterName, None)
  end.

End Ec2Tags.

(* ================================================================== *)
(** ** src/pkg/compliance/checks/builder.go                            *)
(* ================================================================== *)

Module Checks.
Import Ec2Tags.

Local Open Scope string_scope.

(** [ErrResourceNotSupported] *)
Definition ErrResourceNotSupported : error := "resource type not supported".

Section Builder.

(** Types of packages compliance and checks that the builder only passes
    on: [compliance.File], [compliance.DockerResource],
    [compliance.Reporter] and [DockerClient]. *)
Context {File DockerResource Reporter DockerClient : Type}.

(** [compliance.Resource], the two fields the builder reads. *)
Record Resource := mkResource {
  resFile : option File;
  resDocker : option DockerResource
}.

(** [compliance.Rule], the fields the builder reads. *)
Record Rule := mkRule {
  ID : string;
  Resources : list Resource
}.

(** [compliance.SuiteMeta], the fields the builder reads. *)
Record SuiteMeta := mkSuiteMeta {
  Framework : string;
  Version : string
}.

(** [type BuilderEnv struct] *)
Record BuilderEnv := mkBuilderEnv {
  envReporter : Reporter;
  envDockerClient : DockerClient
}.

(** [type builder struct] *)
Record builder := mkBuilder {
  checkInterval : Z;
  env : BuilderEnv
}.

(** The struct [baseCheck] as [builder.baseCheck] fills it. *)
Record baseCheck := mkBaseCheck {
  id : string;
  interval : Z;
  reporter : Reporter;
  framework : string;
  version : string;
  ruleID : string
}.

(** [check.Check] as the builder makes it: a [*fileCheck] or a
    [*dockerCheck]. *)
Inductive Check :=
| fileCheckOf (base : baseCheck) (file : File)
| dockerCheckOf (base : baseCheck) (dockerResource : DockerResource)
    (client : DockerClient).

(** [func NewBuilder(checkInterval time.Duration, env BuilderEnv) Builder]:
    a pointer to a new [builder], never nil. *)
Definition NewBuilder (checkInterval : Z) (env : BuilderEnv) : option builder :=
  Some {| checkInterval := checkInterval; env := env |}.

(** [func (b *builder) baseCheck(ruleID string, meta *compliance.SuiteMeta)];
    the fields of the literal are evaluated in order: [b.checkInterval]
    dereferences [b], and [meta.Framework] dereferences [meta]. *)
Definition baseCheckOf (b : option builder) (ruleID : string)
  (meta : option SuiteMeta) : Result baseCheck :=
  match b with
  | None => Panics
  | Some b =>
      match meta with
      | None => Panics
      | Some m =>
          Returns {| id := ruleID;
                     interval := checkInterval b;
                     reporter := envReporter (env b);
                     framework := Framework m;
                     version := Version m;
                     ruleID := ruleID |}
      end
  end.

(** [func (b *builder) fileCheck(meta, ruleID, file)] *)
Definition fileCheck (b : option builder) (meta : option SuiteMeta)
  (ruleID : string) (file : File) : Result (option Check * option error) :=
  match baseCheckOf b ruleID meta with
  | Panics => Panics
  | Returns base => Returns (Some (fileCheckOf base file), None)
  end.

(** [func (b *builder) dockerCheck(meta, ruleID, dockerResource)];
    [b.env.DockerClient] dereferences [b], after [b.baseCheck] did. *)
Definition dockerCheck (b : option builder) (meta : option SuiteMeta)
  (ruleID : string) (dockerResource : DockerResource)
  : Result (option Check * option error) :=
  match baseCheckOf b ruleID meta with
  | Panics => Panics
  | Returns base =>
      match b with
      | None => Panics
      | Some b' =>
          Returns (Some (dockerCheckOf base dockerResource
                           (envDockerClient (env b'))),
                   None)
      end
  end.

(** The loop of [CheckFromRule] over [rule.Resources]; calling a method on
    a nil [*builder] is no dereference yet. *)
Fixpoint checkFromResources (b : option builder) (meta : option SuiteMeta)
  (ruleID : string) (resources : list Resource)
  : Result (option Check * option error) :=
  match resources with
  | [] => Returns (None, Some ErrResourceNotSupported)
  | resource :: rest =>
      match resFile resource with
      | Some file => fileCheck b meta ruleID file
      | None =>
          match resDocker resource with
          | Some docker => dockerCheck b meta ruleID docker
          | None => checkFromResources b meta ruleID rest
          end
      end
  end.

(** [func (b *builder) CheckFromRule(meta *compliance.SuiteMeta,
    rule *compliance.Rule) (check.Check, error)]; [rule.Resources]
    dereferences [rule]. *)
Definition CheckFromRule (b : option builder) (meta : option SuiteMeta)
  (rule : option Rule) : Result (option Check * option error) :=
  match rule with
  | None => Panics
  | Some r => checkFromResources b meta (ID r) (Resources r)
  end.

(** A resource the builder has a check for. *)
Definition supported (r : Resource) : bool :=
  match resFile r, resDocker r with
  | None, None => false
  | _, _ => true
  end.

End Builder.

End Checks.

(* ================================================================== *)
(** ** src/pkg/util/ec2/ec2.go: the metadata client                    *)
(* ================================================================== *)

Module Ec2Api.
Import GoStrings Ec2Tags.

Local Open Scope string_scope.

(** Instants and durations are numbers of nanoseconds. *)
Definition Millisecond : Z := 1000000.
Definition Second : Z := 1000000000.

Definition metadataURL : string := "http://169.254.169.254/latest/meta-data".
Definition tokenURL : string := "http://169.254.169.254/latest/api/token".
Definition CloudProviderName : string := "AWS".

Definition MethodGet : string := "GET".
Definition MethodPut : string := "PUT".

(** [type ec2Token struct]; the lock is left out, calls run one at a time. *)
Record ec2Token := mkToken {
  expirationDate : Z;
  value : string
}.

(** A value of type [interface{}] held by the agent's cache. *)
Inductive any :=
| anyString (s : string)
| anyInt (z : Z).

(** [cache.Cache]: keys bound to values that do not expire. *)
Definition Cache : Type := string -> option any.

Definition cacheSet (key : string) (x : any) (c : Cache) : Cache :=
  fun k => if String.eqb k key then Some x else c k.

(** An [*http.Request] as the client builds it: method, URL and the
    headers given to [req.Header.Add], in the order they are added. *)
Record Request := mkRequest {
  Method : string;
  URL : string;
  Header : list (string * string)
}.

(** What [ioutil.ReadAll(res.Body)] gives. *)
Inductive ReadResult :=
| ReadOk (all : string)
| ReadError (err : error).

(** An [*http.Response]: its status code and what reading its body gives. *)
Record Response := mkResponse {
  StatusCode : Z;
  Body : ReadResult
}.

(** What [client.Do(req)] gives. *)
Inductive DoResult :=
| DoError (err : error)
| DoResponse (res : Response).

(** The state the package works on: the package variable [token], the
    agent's cache, and how many times the clock was read and a request
    was sent so far. *)
Record World := mkWorld {
  token : ec2Token;
  cache : Cache;
  nowCalls : nat;
  doCalls : nat
}.

(** A call on a world returns a value and the world it leaves, or panics. *)
Inductive Outcome (A : Type) : Type :=
| Done (a : A) (w : World)
| Panicked.
Arguments Done {A} a w.
Arguments Panicked {A}.

Definition M (A : Type) : Type := World -> Outcome A.

Definition ret {A : Type} (a : A) : M A := fun w => Done a w.

Definition bind {A B : Type} (m : M A) (k : A -> M B) : M B :=
  fun w =>
    match m w with
    | Done a w' => k a w'
    | Panicked => Panicked
    end.

Definition panic {A : Type} : M A := fun _ => Panicked.

Notation "x <- m ;; k" := (bind m (fun x => k))
  (at level 61, m at next level, right associativity).
Notation "m ;;; k" := (bind m (fun _ => k))
  (at level 61, right associativity).

(** What the package takes from outside: the clock, the network, package
    net/http, the agent's configuration and cache keys, and [GetTags], a
    function of this package whose file is not among the sources. *)
Record Env := mkEnv {
  (** [time.Now()], by the number of earlier readings *)
  clock : nat -> Z;
  (** [client.Do(req)] for a client with the given timeout, by the number
      of earlier requests *)
  clientDo : nat -> Z -> Request -> DoResult;
  (** the error of [http.NewRequest(method, url, nil)], if any *)
  newRequestError : string -> string -> option error;
  (** [config.IsCloudProviderEnabled(CloudProviderName)] *)
  cloudProviderEnabled : bool;
  (** [config.Datadog.GetInt("metadata_endpoints_max_hostname_size")] *)
  maxHostnameSize : Z;
  (** [config.Datadog.GetBool("ec2_prefer_imdsv2")] *)
  preferIMDSv2 : bool;
  (** [config.Datadog.GetInt("ec2_metadata_timeout")] *)
  metadataTimeout : Z;
  (** [config.Datadog.GetInt("ec2_metadata_token_lifetime")] *)
  metadataTokenLifetime : Z;
  (** [cache.BuildAgentKey("ec2", "GetInstanceID")] *)
  instanceIDCacheKey : string;
  (** [cache.BuildAgentKey("ec2", "GetHostname")] *)
  hostnameCacheKey : string;
  (** [GetTags()] *)
  GetTags : M (list string * option error);
  (** [strings.TrimSpace] *)
  TrimSpace : string -> string
}.

(** [tokenLifetime] *)
Definition tokenLifetime (env : Env) : Z := metadataTokenLifetime env * Second.

Definition disabledError : error := "cloud provider is disabled by configuration".

(** *** Reading and writing the world *)

Definition timeNow (env : Env) : M Z :=
  fun w =>
    Done (clock env (nowCalls w))
         (mkWorld (token w) (cache w) (S (nowCalls w)) (doCalls w)).

Definition doRequest (env : Env) (timeout : Z) (req : Request) : M DoResult :=
  fun w =>
    Done (clientDo env (doCalls w) timeout req)
         (mkWorld (token w) (cache w) (nowCalls w) (S (doCalls w))).

Definition readToken : M ec2Token := fun w => Done (token w) w.

Definition setExpirationDate (t : Z) : M unit :=
  fun w =>
    Done tt (mkWorld (mkToken t (value (token w))) (cache w) (nowCalls w) (doCalls w)).

Definition setValue (v : string) : M unit :=
  fun w =>
    Done tt (mkWorld (mkToken (expirationDate (token w)) v) (cache w)
               (nowCalls w) (doCalls w)).

Definition cacheGetM (key : string) : M (option any) :=
  fun w => Done (cache w key) w.

Definition cacheSetM (key : string) (x : any) : M unit :=
  fun w =>
    Done tt (mkWorld (token w) (cacheSet key x (cache w)) (nowCalls w) (doCalls w)).

(** A Go map of type [map[string]string]: [None] is the nil map, [Some l]
    a map with the bindings [l], each key bound once. *)
Definition GoMap : Type := option (list (string * string)).

(** [headers[key] = val] on the bindings of a map that is not nil. *)
Fixpoint mapSet (key val : string) (headers : list (string * string))
  : list (string * string) :=
  match headers with
  | [] => [(key, val)]
  | (k, v) :: rest =>
      if String.eqb k key then (key, val) :: rest
      else (k, v) :: mapSet key val rest
  end.

(** The bindings [for header, value := range headers] visits; a nil map has
    none. *)
Definition bindings (headers : GoMap) : list (string * string) :=
  match headers with
  | Some l => l
  | None => []
  end.

(** [time.Now().Before(token.expirationDate.Add(-15 * time.Second))] *)
Definition stillValid (now : Z) (tok : ec2Token) : bool :=
  (now <? expirationDate tok + - 15 * Second)%Z.

(** *** The functions of the file *)

(** [func getToken() (string, error)] *)
Definition getToken (env : Env) : M (string * option error) :=
  now <- timeNow env ;;
  tok <- readToken ;;
  if stillValid now tok then ret (value tok, None)
  else
    now <- timeNow env ;;
    tok <- readToken ;;
    if stillValid now tok then ret (value tok, None)
    else
      match newRequestError env MethodPut tokenURL with
      | Some err => ret ("", Some err)
      | None =>
          let req :=
            {| Method := MethodPut;
               URL := tokenURL;
               Header := [("X-aws-ec2-metadata-token-ttl-seconds",
                           fmtInt (metadataTokenLifetime env))] |} in
          now <- timeNow env ;;
          setExpirationDate (now + tokenLifetime env) ;;;
          r <- doRequest env (metadataTimeout env * Millisecond) req ;;
          match r with
          | DoError err =>
              now <- timeNow env ;;
              setExpirationDate now ;;;
              ret ("", Some err)
          | DoResponse res =>
              if negb (StatusCode res =? 200)%Z then
                now <- timeNow env ;;
                setExpirationDate now ;;;
                ret ("", Some ("status code " ++ fmtInt (StatusCode res)
                               ++ " trying to fetch " ++ tokenURL))
              else
                match Body res with
                | ReadError err =>
                    now <- timeNow env ;;
                    setExpirationDate now ;;;
                    ret ("", Some ("unable to read response body, " ++ err))
                | ReadOk all =>
                    setValue all ;;;
                    ret (all, None)
                end
          end
      end.

(** [func doHTTPRequest(url string, method string, headers map[string]string,
    useToken bool)], returning [*http.Response, error].  The token is written
    into the map [headers] itself, which panics when the map is nil; the
    callers of this file do not read the map again, so it is not handed
    back. *)
Definition doHTTPRequest (env : Env) (url method : string)
  (headers : GoMap) (useToken : bool)
  : M (option Response * option error) :=
  match newRequestError env method url with
  | Some err => ret (None, Some err)
  | None =>
      headers <-
        (if useToken then
           t <- getToken env ;;
           match snd t with
           | Some _ => ret headers
           | None =>
               match headers with
               | None => panic
               | Some l =>
                   ret (Some (mapSet "X-aws-ec2-metadata-token" (fst t) l))
               end
           end
         else ret headers) ;;
      let req :=
        {| Method := method; URL := url; Header := bindings headers |} in
      r <- doRequest env (metadataTimeout env * Millisecond) req ;;
      match r with
      | DoError err => ret (None, Some err)
      | DoResponse res =>
          if negb (StatusCode res =? 200)%Z then
            ret (None, Some ("status code " ++ fmtInt (StatusCode res)
                             ++ " trying to fetch " ++ url))
          else ret (Some res, None)
      end
  end.

(** [func getMetadataItem(endpoint string) (string, error)] *)
Definition getMetadataItem (env : Env) (endpoint : string)
  : M (string * option error) :=
  r <- doHTTPRequest env (metadataURL ++ endpoint) MethodGet (Some [])
         (preferIMDSv2 env) ;;
  match r with
  | (_, Some err) => ret ("", Some ("unable to fetch EC2 API, " ++ err))
  | (None, None) => panic
  | (Some res, None) =>
      match Body res with
      | ReadError err => ret ("", Some ("unable to read response body, " ++ err))
      | ReadOk all => ret (all, None)
      end
  end.

(** [func getMetadataItemWithMaxLength(endpoint string, maxLength int)
    (string, error)] *)
Definition getMetadataItemWithMaxLength (env : Env) (endpoint : string)
  (maxLength : Z) : M (string * option error) :=
  r <- getMetadataItem env endpoint ;;
  match snd r with
  | Some _ => ret r
  | None =>
      if (maxLength <? Z.of_nat (String.length (fst r)))%Z then
        ret ("", Some (endpoint ++ " gave a response with length > to "
                       ++ fmtInt maxLength))
      else ret r
  end.

(** [func GetInstanceID() (string, error)]; the cached value is converted
    with [.(string)], which panics on a value of another type. *)
Definition GetInstanceID (env : Env) : M (string * option error) :=
  if negb (cloudProviderEnabled env) then ret ("", Some disabledError)
  else
    r <- getMetadataItemWithMaxLength env "/instance-id" (maxHostnameSize env) ;;
    match snd r with
    | Some err =>
        found <- cacheGetM (instanceIDCacheKey env) ;;
        match found with
        | Some (anyString instanceID) => ret (instanceID, None)
        | Some _ => panic
        | None => ret ("", Some err)
        end
    | None =>
        cacheSetM (instanceIDCacheKey env) (anyString (fst r)) ;;;
        ret (fst r, None)
    end.

(** [func GetHostname() (string, error)]; the cached value is converted
    with [.(string)], which panics on a value of another type. *)
Definition GetHostname (env : Env) : M (string * option error) :=
  if negb (cloudProviderEnabled env) then ret ("", Some disabledError)
  else
    r <- getMetadataItemWithMaxLength env "/hostname" (maxHostnameSize env) ;;
    match snd r with
    | Some err =>
        found <- cacheGetM (hostnameCacheKey env) ;;
        match found with
        | Some (anyString hostname) => ret (hostname, None)
        | Some _ => panic
        | None => ret ("", Some err)
        end
    | None =>
        cacheSetM (hostnameCacheKey env) (anyString (fst r)) ;;;
        ret (fst r, None)
    end.

(** The body [GetInstanceID] and [GetHostname] have in common, by endpoint
    and cache key: what is proved of it holds of both. *)
Definition cachedItem (env : Env) (endpoint key : string)
  : M (string * option error) :=
  if negb (cloudProviderEnabled env) then ret ("", Some disabledError)
  else
    r <- getMetadataItemWithMaxLength env endpoint (maxHostnameSize env) ;;
    match snd r with
    | Some err =>
        found <- cacheGetM key ;;
        match found with
        | Some (anyString s) => ret (s, None)
        | Some _ => panic
        | None => ret ("", Some err)
        end
    | None =>
        cacheSetM key (anyString (fst r)) ;;;
        ret (fst r, None)
    end.

(** [func GetLocalIPv4() ([]string, error)] *)
Definition GetLocalIPv4 (env : Env) : M (option (list string) * option error) :=
  if negb (cloudProviderEnabled env) then ret (None, Some disabledError)
  else
    r <- getMetadataItem env "/local-ipv4" ;;
    match snd r with
    | Some err => ret (None, Some err)
    | None => ret (Some [fst r], None)
    end.

(** [func IsRunningOn() bool] *)
Definition IsRunningOn (env : Env) : M bool :=
  r <- GetHostname env ;;
  match snd r with
  | None => ret true
  | Some _ => ret false
  end.

(** [func HostnameProvider() (string, error)] *)
Definition HostnameProvider (env : Env) : M (string * option error) :=
  GetInstanceID env.

(** [func GetClusterName() (string, error)] *)
Definition GetClusterName (env : Env) : M (string * option error) :=
  if negb (cloudProviderEnabled env) then ret ("", Some disabledError)
  else
    r <- GetTags env ;;
    match snd r with
    | Some err =>
        ret ("", Some ("unable to retrieve clustername from EC2: " ++ err))
    | None =>
        match extractClusterName (fst r) with
        | Panics => panic
        | Returns x => ret x
        end
    end.

(** [vpcIDs.Add(id)] on a [common.StringSet], kept as the list of its
    members. *)
Definition setAdd (x : string) (s : list string) : list string :=
  if existsb (String.eqb x) s then s else (s ++ [x])%list.

(** The loop of [GetNetworkID] over the MAC addresses: the set of VPC ids,
    or the error that ends the function early. *)
Fixpoint collectVpcIDs (env : Env) (macs : list string) (vpcIDs : list string)
  : M (list string * option error) :=
  match macs with
  | [] => ret (vpcIDs, None)
  | mac :: rest =>
      if String.eqb mac "" then collectVpcIDs env rest vpcIDs
      else
        let mac := TrimSuffix mac "/" in
        r <- getMetadataItem env
               ("/network/interfaces/macs/" ++ mac ++ "/vpc-id") ;;
        match snd r with
        | Some err => ret (vpcIDs, Some err)
        | None => collectVpcIDs env rest (setAdd (fst r) vpcIDs)
        end
  end.

(** [func GetNetworkID() (string, error)] *)
Definition GetNetworkID (env : Env) : M (string * option error) :=
  if negb (cloudProviderEnabled env) then ret ("", Some disabledError)
  else
    r <- getMetadataItem env "/network/interfaces/macs" ;;
    match snd r with
    | Some err => ret ("", Some err)
    | None =>
        let macs := Split (TrimSpace env (fst r)) "010" in
        c <- collectVpcIDs env macs [] ;;
        match snd c with
        | Some err => ret ("", Some err)
        | None =>
            match fst c with
            | [] => ret ("", Some "EC2: GetNetworkID no mac addresses returned")
            | [vpc] => ret (vpc, None)
            | _ => ret ("", Some "EC2: GetNetworkID too many mac addresses returned")
            end
        end
    end.

(** The VPC ids of the network interfaces, as a metadata service that
    answers [site url] to a GET of [url] reports them: one id for each
    non-empty line of the list of MAC addresses. *)
Definition interfaceVpcIDs (env : Env) (site : string -> string) : list string :=
  map (fun mac =>
         site (metadataURL ++ "/network/interfaces/macs/"
               ++ TrimSuffix mac "/" ++ "/vpc-id"))
    (filter (fun mac => negb (String.eqb mac ""))
       (Split (TrimSpace env (site (metadataURL ++ "/network/interfaces/macs")))
          "010")).

(** Sample surroundings for concrete runs: a clock that ticks once a second,
    a metadata service that knows a hostname, an instance id, two interfaces
    in one VPC, and
    hands out tokens. *)
Definition sampleSite (url : string) : string :=
  if String.eqb url "http://169.254.169.254/latest/meta-data/hostname"
  then "ip-10-0-0-1.ec2.internal"
  else if String.eqb url "http://169.254.169.254/latest/meta-data/instance-id"
  then "i-0123456789abcdef0"
  else if String.eqb url "http://169.254.169.254/latest/meta-data/network/interfaces/macs"
  then "0e:01/" ++ String "010" "0e:02/" ++ String "010" ""
  else if String.eqb url "http://169.254.169.254/latest/api/token"
  then "token-1"
  else "vpc-1".

Definition sampleEnv : Env :=
  {| clock := fun k => Z.of_nat k * Second;
     clientDo := fun _ _ req =>
       DoResponse {| StatusCode := 200; Body := ReadOk (sampleSite (URL req)) |};
     newRequestError := fun _ _ => None;
     cloudProviderEnabled := true;
     maxHostnameSize := 255;
     preferIMDSv2 := true;
     metadataTimeout := 300;
     metadataTokenLifetime := 21600;
     instanceIDCacheKey := "agent/ec2/GetInstanceID";
     hostnameCacheKey := "agent/ec2/GetHostname";
     GetTags := ret ([], None);
     TrimSpace := fun s => s |}.

(** The same surroundings with a metadata service that cannot be reached. *)
Definition offlineEnv : Env :=
  {| clock := fun k => Z.of_nat k * Second;
     clientDo := fun _ _ _ => DoError "connection refused";
     newRequestError := fun _ _ => None;
     cloudProviderEnabled := true;
     maxHostnameSize := 255;
     preferIMDSv2 := true;
     metadataTimeout := 300;
     metadataTokenLifetime := 21600;
     instanceIDCacheKey := "agent/ec2/GetInstanceID";
     hostnameCacheKey := "agent/ec2/GetHostname";
     GetTags := ret ([], None);
     TrimSpace := fun s => s |}.

(** The same surroundings with a metadata service that answers two
    requests and cannot be reached afterwards. *)
Definition flakyEnv : Env :=
  {| clock := fun k => Z.of_nat k * Second;
     clientDo := fun k _ req =>
       if (k <? 2)%nat
       then DoResponse {| StatusCode := 200; Body := ReadOk (sampleSite (URL req)) |}
       else DoError "connection refused";
     newRequestError := fun _ _ => None;
     cloudProviderEnabled := true;
     maxHostnameSize := 255;
     preferIMDSv2 := true;
     metadataTimeout := 300;
     metadataTokenLifetime := 21600;
     instanceIDCacheKey := "agent/ec2/GetInstanceID";
     hostnameCacheKey := "agent/ec2/GetHostname";
     GetTags := ret ([], None);
     TrimSpace := fun s => s |}.

(** The same surroundings with a metadata service that hands out a token
    and answers 401 to a request that does not carry it. *)
Definition strictEnv : Env :=
  {| clock := fun k => Z.of_nat k * Second;
     clientDo := fun _ _ req =>
       if String.eqb (URL req) tokenURL
       then DoResponse {| StatusCode := 200; Body := ReadOk "token-1" |}
       else if existsb
                 (fun kv => String.eqb (fst kv) "X-aws-ec2-metadata-token"
                            && String.eqb (snd kv) "token-1")
                 (Header req)
       then DoResponse {| StatusCode := 200; Body := ReadOk (sampleSite (URL req)) |}
       else DoResponse {| StatusCode := 401; Body := ReadOk "" |};
     newRequestError := fun _ _ => None;
     cloudProviderEnabled := true;
     maxHostnameSize := 255;
     preferIMDSv2 := true;
     metadataTimeout := 300;
     metadataTokenLifetime := 21600;
     instanceIDCacheKey := "agent/ec2/GetInstanceID";
     hostnameCacheKey := "agent/ec2/GetHostname";
     GetTags := ret ([], None);
     TrimSpace := fun s => s |}.

(** The same surroundings with the cloud provider disabled. *)
Definition disabledEnv : Env :=
  {| clock := fun k => Z.of_nat k * Second;
     clientDo := fun _ _ req =>
       DoResponse {| StatusCode := 200; Body := ReadOk (sampleSite (URL req)) |};
     newRequestError := fun _ _ => None;
     cloudProviderEnabled := false;
     maxHostnameSize := 255;
     preferIMDSv2 := true;
     metadataTimeout := 300;
     metadataTokenLifetime := 21600;
     instanceIDCacheKey := "agent/ec2/GetInstanceID";
     hostnameCacheKey := "agent/ec2/GetHostname";
     GetTags := ret ([], None);
     TrimSpace := fun s => s |}.

(** The world at start-up: the zero token (the zero [time.Time] lies in
    year 1) and an empty cache. *)
Definition zeroTime : Z := - 62135596800 * Second.

Definition initialWorld : World :=
  {| token := {| expirationDate := zeroTime; value := "" |};
     cache := fun _ => None;
     nowCalls := 0;
     doCalls := 0 |}.

(** A world whose cache holds a number under the hostname key. *)
Definition poisonedWorld : World :=
  {| token := {| expirationDate := zeroTime; value := "" |};
     cache := cacheSet "agent/ec2/GetHostname" (anyInt 7) (fun _ => None);
     nowCalls := 0;
     doCalls := 0 |}.

End Ec2Api.
(* ================================================================== *)
(** ** Properties of the tracer without kernel instrumentation         *)
(* ================================================================== *)

Import Model.

(** C1: on a platform without kernel instrumentation every query method,
    GetActiveConnections and DebugNetworkState for every client id, GetStats
    and DebugNetworkMaps, returns a nil result and the error
    ErrNotImplemented, for every receiver; any two queries fail with the
    same error. *)
Theorem queries_fail_not_implemented :
  forall (t : option Ebpf.Tracer) (c1 c2 : string),
    fst (Ebpf.GetActiveConnections t c1) = (None, Some ErrNotImplemented) /\
    fst (Ebpf.GetStats t) = (None, Some ErrNotImplemented) /\
    fst (Ebpf.DebugNetworkState t c2) = (None, Some ErrNotImplemented) /\
    fst (Ebpf.DebugNetworkMaps t) = (None, Some ErrNotImplemented) /\
    forall q1 q2 : Ebpf.Query,
      snd (fst (Ebpf.call q1 t)) = snd (fst (Ebpf.call q2 t)).
Proof.
  intros t c1 c2. repeat split.
  intros [c| |c| ] [c'| |c'| ]; reflexivity.
Qed.

(** C2, as the specification states it, fails on this build: after Stop a
    query on a freshly built tracer does not return the stopped-engine
    error. *)
Lemma query_after_stop_not_stopped_error :
  snd (fst (Ebpf.call Ebpf.QGetStats
              (snd (Ebpf.Stop (fst (Ebpf.NewTracer None))))))
  <> Some ErrStopped.
Proof. cbn. discriminate. Qed.

(** C2, amended: for every tracer and every query method, a call made
    after Stop returns a nil result (neither partial nor empty data) and a
    fixed error, which is ErrNotImplemented; it is the very outcome of the
    same call made before Stop. *)
Theorem query_after_stop_not_implemented :
  forall (t : option Ebpf.Tracer) (q : Ebpf.Query),
    let stopped := snd (Ebpf.Stop t) in
    snd (fst (Ebpf.call q stopped)) = Some ErrNotImplemented /\
    Ebpf.isNil (fst (fst (Ebpf.call q stopped))) = true /\
    Ebpf.call q stopped = Ebpf.call q t.
Proof.
  intros t [c| |c| ]; cbn; repeat split.
Qed.

(** C3: Stop is idempotent; a second Stop leaves the tracer as the first
    one left it, whatever the tracer (nil included). *)
Theorem stop_idempotent :
  forall t : option Ebpf.Tracer,
    Ebpf.Stop (snd (Ebpf.Stop t)) = Ebpf.Stop t.
Proof. intros t. unfold Ebpf.Stop. reflexivity. Qed.

(** C8: NewTracer succeeds on every input, the nil configuration included:
    the error is nil and the tracer is a non-nil pointer to the zero value,
    with every telemetry counter zero, an empty buffer, empty exclusion
    lists, no port mapping and no configuration retained. *)
Theorem new_tracer_zero_value :
  forall cfg : option Config,
    snd (Ebpf.NewTracer cfg) = None /\
    exists t : Ebpf.Tracer,
      fst (Ebpf.NewTracer cfg) = Some t /\
      Ebpf.config t = None /\
      Ebpf.portMapping t = None /\
      Ebpf.perfReceived t = 0 /\
      Ebpf.perfLost t = 0 /\
      Ebpf.skippedConns t = 0 /\
      Ebpf.pidCollisions t = 0 /\
      Ebpf.expiredTCPConns t = 0 /\
      Ebpf.buffer t = [] /\
      Ebpf.bufferLock t = false /\
      Ebpf.sourceExcludes t = [] /\
      Ebpf.destExcludes t = [].
Proof.
  intros cfg. split; [reflexivity|].
  exists Ebpf.zeroTracer. cbn. repeat split.
Qed.

(** C9: CurrentKernelVersion returns 1 and a nil error. *)
Theorem current_kernel_version_one :
  Ebpf.CurrentKernelVersion = (1, None).
Proof. reflexivity. Qed.

(* ================================================================== *)
(** ** Properties of the EC2 default-hostname tests                    *)
(* ================================================================== *)

Section HostnameFacts.

Local Open Scope string_scope.

Variable unicodeToLower : string -> string.

Lemma windows_prefix_excludes_old :
  forall s : string,
    Ec2.HasPrefix s "ec2amaz-" = true ->
    Ec2.HasPrefix s "ip-" = false /\ Ec2.HasPrefix s "domu" = false.
Proof.
  intros [|c s] H.
  - discriminate H.
  - unfold Ec2.HasPrefix in *. cbn in H |- *.
    apply andb_true_iff in H. destruct H as [_ H].
    destruct (Ascii.eqb c "e") eqn:E; [|discriminate H].
    apply Ascii.eqb_eq in E. subst c. cbn.
    rewrite !andb_false_r. split; reflexivity.
Qed.

Lemma isDefaultHostname_old :
  forall h,
    Ec2.isDefaultHostname unicodeToLower h false =
    Ec2.HasPrefix (Ec2.ToLower unicodeToLower h) "ip-"
    || Ec2.HasPrefix (Ec2.ToLower unicodeToLower h) "domu".
Proof. intros h. reflexivity. Qed.

Lemma isDefaultHostname_windows :
  forall h,
    Ec2.isDefaultHostname unicodeToLower h true =
    Ec2.HasPrefix (Ec2.ToLower unicodeToLower h) "ip-"
    || Ec2.HasPrefix (Ec2.ToLower unicodeToLower h) "domu"
    || Ec2.HasPrefix (Ec2.ToLower unicodeToLower h) "ec2amaz-".
Proof. intros h. reflexivity. Qed.

(** C10: IsWindowsDefaultHostname holds of a hostname exactly when its
    lower-case form starts with "ec2amaz-". *)
Theorem windows_default_hostname_iff_ec2amaz :
  forall h : string,
    Ec2.IsWindowsDefaultHostname unicodeToLower h =
    Ec2.HasPrefix (Ec2.ToLower unicodeToLower h) "ec2amaz-".
Proof.
  intros h. unfold Ec2.IsWindowsDefaultHostname.
  rewrite isDefaultHostname_old, isDefaultHostname_windows.
  destruct (Ec2.HasPrefix (Ec2.ToLower unicodeToLower h) "ec2amaz-") eqn:W.
  - destruct (windows_prefix_excludes_old _ W) as [-> ->]. reflexivity.
  - rewrite orb_false_r. apply andb_negb_l.
Qed.

End HostnameFacts.

Example windows_hostname_upper :
  Ec2.IsWindowsDefaultHostname (fun s => s) "EC2AMAZ-ABC123"%string = true.
Proof. reflexivity. Qed.

Example windows_hostname_linux_default :
  Ec2.IsWindowsDefaultHostname (fun s => s) "IP-10-0-0-1"%string = false.
Proof. reflexivity. Qed.

Example windows_hostname_short :
  Ec2.IsWindowsDefaultHostname (fun s => s) "ec2amaz"%string = false.
Proof. reflexivity. Qed.


(* ================================================================== *)
(** ** Properties of the connection table                              *)
(* ================================================================== *)

Import Ebpf Engine.

Lemma proto_eqb_eq : forall a b, proto_eqb a b = true <-> a = b.
Proof. intros [] []; cbn; split; intros H; congruence. Qed.

Lemma tuple_eqb_eq : forall a b, tuple_eqb a b = true <-> a = b.
Proof.
  intros [la lp ra rp pr] [la' lp' ra' rp' pr']. unfold tuple_eqb. cbn.
  rewrite !andb_true_iff, !Z.eqb_eq, proto_eqb_eq.
  split.
  - intros [[[[-> ->] ->] ->] ->]. reflexivity.
  - intros H. injection H as -> -> -> -> ->. repeat split.
Qed.


Lemma identity_eqb_eq : forall a b, identity_eqb a b = true <-> a = b.
Proof.
  intros [t p] [t' p']. unfold identity_eqb. cbn.
  rewrite andb_true_iff, tuple_eqb_eq, Z.eqb_eq.
  split.
  - intros [-> ->]. reflexivity.
  - intros H. injection H as -> ->. split; reflexivity.
Qed.

Lemma hasIdentity_true : forall id c, hasIdentity id c = true <-> identity c = id.
Proof. intros id c. apply identity_eqb_eq. Qed.

Lemma hasTuple_true : forall t c, hasTuple t c = true <-> cs_tuple c = t.
Proof. intros t c. apply tuple_eqb_eq. Qed.

Lemma hasIdentity_absent :
  forall id tbl,
    existsb (hasIdentity id) tbl = false <-> ~ In id (map identity tbl).
Proof.
  intros id tbl. split.
  - intros H Hin. apply in_map_iff in Hin. destruct Hin as [c [Hc Hin]].
    assert (existsb (hasIdentity id) tbl = true) as E.
    { apply existsb_exists. exists c. split; [assumption|].
      apply hasIdentity_true. assumption. }
    congruence.
  - intros H. destruct (existsb (hasIdentity id) tbl) eqn:E; [|reflexivity].
    exfalso. apply H. apply existsb_exists in E. destruct E as [c [Hin Hc]].
    apply in_map_iff. exists c. split; [|assumption].
    apply hasIdentity_true. assumption.
Qed.

Lemma hasTuple_absent :
  forall t tbl,
    existsb (hasTuple t) tbl = false <-> ~ In t (map cs_tuple tbl).
Proof.
  intros t tbl. split.
  - intros H Hin. apply in_map_iff in Hin. destruct Hin as [c [Hc Hin]].
    assert (existsb (hasTuple t) tbl = true) as E.
    { apply existsb_exists. exists c. split; [assumption|].
      apply hasTuple_true. assumption. }
    congruence.
  - intros H. destruct (existsb (hasTuple t) tbl) eqn:E; [|reflexivity].
    exfalso. apply H. apply existsb_exists in E. destruct E as [c [Hin Hc]].
    apply in_map_iff. exists c. split; [|assumption].
    apply hasTuple_true. assumption.
Qed.

(** Dropping entries keeps the keys of a table distinct. *)
Lemma NoDup_map_filter :
  forall (K : Type) (key : ConnectionStats -> K) (p : ConnectionStats -> bool) tbl,
    NoDup (map key tbl) -> NoDup (map key (filter p tbl)).
Proof.
  intros K key p tbl. induction tbl as [|c tbl IH]; cbn; intros H.
  - constructor.
  - inversion H as [|k ks Hnotin Hrest]; subst.
    destruct (p c); cbn; [constructor|]; auto.
    intros Hin. apply Hnotin.
    apply in_map_iff in Hin. destruct Hin as [c' [Hk Hin]].
    apply in_map_iff. exists c'. split; [assumption|].
    apply filter_In in Hin. tauto.
Qed.

Lemma NoDup_map_snoc :
  forall (K : Type) (key : ConnectionStats -> K) tbl c,
    NoDup (map key tbl) -> ~ In (key c) (map key tbl) ->
    NoDup (map key (tbl ++ [c])).
Proof.
  intros K key tbl c Hnd Hnotin. rewrite map_app. cbn.
  apply NoDup_app; [assumption | repeat constructor; intros [] |].
  intros k Hin [<-|[]]. contradiction.
Qed.

Lemma not_In_map_filter :
  forall (K : Type) (key : ConnectionStats -> K) (p : ConnectionStats -> bool) k tbl,
    ~ In k (map key tbl) -> ~ In k (map key (filter p tbl)).
Proof.
  intros K key p k tbl H Hin. apply H.
  apply in_map_iff in Hin. destruct Hin as [c [Hk Hin]].
  apply in_map_iff. exists c. split; [assumption|].
  apply filter_In in Hin. tauto.
Qed.

Section TableFacts.

Variable directionOf : Tuple -> Direction.

Lemma identity_applyDelta :
  forall d now c, identity (applyDelta d now c) = identity c.
Proof. reflexivity. Qed.

Lemma identity_fresh :
  forall id d now, identity (fresh directionOf id d now) = id.
Proof. intros [t p] d now. reflexivity. Qed.

Lemma map_identity_update :
  forall id d now tbl,
    map identity
      (map (fun c => if hasIdentity id c then applyDelta d now c else c) tbl)
    = map identity tbl.
Proof.
  intros id d now tbl. rewrite map_map. apply map_ext.
  intros c. destruct (hasIdentity id c); reflexivity.
Qed.

Lemma map_tuple_update :
  forall id d now tbl,
    map cs_tuple
      (map (fun c => if hasIdentity id c then applyDelta d now c else c) tbl)
    = map cs_tuple tbl.
Proof.
  intros id d now tbl. rewrite map_map. apply map_ext.
  intros c. destruct (hasIdentity id c); reflexivity.
Qed.

(** [upsert] keeps identities distinct. *)
Lemma upsert_uniqueIdentities :
  forall id d now tbl,
    uniqueIdentities tbl ->
    uniqueIdentities (fst (upsert directionOf id d now tbl)).
Proof.
  unfold uniqueIdentities, upsert. intros id d now tbl H.
  destruct (existsb (hasIdentity id) tbl) eqn:Eid; cbn.
  - rewrite map_identity_update. assumption.
  - apply hasIdentity_absent in Eid.
    destruct (existsb (hasTuple (fst id)) tbl); cbn.
    + apply NoDup_map_snoc.
      * apply NoDup_map_filter. assumption.
      * rewrite identity_fresh. apply not_In_map_filter. assumption.
    + apply NoDup_map_snoc; [assumption|].
      rewrite identity_fresh. assumption.
Qed.

(** [upsert] keeps tuples distinct: a collision replaces the owner. *)
Lemma upsert_uniqueTuples :
  forall id d now tbl,
    uniqueTuples tbl ->
    uniqueTuples (fst (upsert directionOf id d now tbl)).
Proof.
  unfold uniqueTuples, upsert. intros id d now tbl H.
  destruct (existsb (hasIdentity id) tbl) eqn:Eid; cbn.
  - rewrite map_tuple_update. assumption.
  - destruct (existsb (hasTuple (fst id)) tbl) eqn:Etu; cbn.
    + apply NoDup_map_snoc.
      * apply NoDup_map_filter. assumption.
      * cbn. intros Hin. apply in_map_iff in Hin.
        destruct Hin as [c [Hc Hin]]. apply filter_In in Hin.
        destruct Hin as [_ Hneg]. apply hasTuple_true in Hc.
        rewrite Hc in Hneg. discriminate Hneg.
    + apply NoDup_map_snoc; [assumption|].
      cbn. apply hasTuple_absent. assumption.
Qed.


Lemma remove_table :
  forall id tbl,
    snd (remove id tbl) = filter (fun c => negb (hasIdentity id c)) tbl.
Proof.
  unfold remove. intros id tbl.
  destruct (find (hasIdentity id) tbl) eqn:F; cbn; [reflexivity|].
  symmetry. apply forallb_filter_id. apply forallb_forall.
  intros c Hin. rewrite (find_none _ _ F c Hin). reflexivity.
Qed.

(** Removing an identity that is not in the table returns nothing and
    leaves the table as it is. *)
Lemma remove_absent :
  forall id tbl,
    ~ In id (map identity tbl) -> remove id tbl = (None, tbl).
Proof.
  unfold remove. intros id tbl H.
  destruct (find (hasIdentity id) tbl) eqn:F; [|reflexivity].
  exfalso. apply H. apply find_some in F. destruct F as [Hin Hc].
  apply in_map_iff. exists c. split; [|assumption].
  apply hasIdentity_true. assumption.
Qed.

End TableFacts.

(* ================================================================== *)
(** ** Properties of the bounded buffer                                *)
(* ================================================================== *)

Lemma bufferAppend_length :
  forall cap buf c,
    (List.length buf <= cap)%nat ->
    (List.length (bufferAppend cap buf c) <= cap)%nat.
Proof.
  intros cap buf c H. unfold bufferAppend.
  destruct (List.length buf <? cap)%nat eqn:E.
  - apply Nat.ltb_lt in E. rewrite length_app. cbn. lia.
  - destruct buf as [|oldest newer]; cbn in *; [lia|].
    rewrite length_app. cbn. lia.
Qed.

Lemma bufferAppend_full :
  forall cap oldest newer c,
    List.length (oldest :: newer) = cap ->
    bufferAppend cap (oldest :: newer) c = newer ++ [c].
Proof.
  intros cap oldest newer c H. unfold bufferAppend.
  rewrite H, Nat.ltb_irrefl. reflexivity.
Qed.

Lemma fold_bufferAppend_length :
  forall cap cs buf,
    (List.length buf <= cap)%nat ->
    (List.length (fold_left (bufferAppend cap) cs buf) <= cap)%nat.
Proof.
  intros cap cs. induction cs as [|c cs IH]; cbn; intros buf H.
  - assumption.
  - apply IH. apply bufferAppend_length. assumption.
Qed.

(** After any appends to an empty buffer, the buffer holds the entries
    appended last, as many as the capacity allows, the earliest of them
    first. *)
Lemma fold_bufferAppend_last :
  forall cap cs,
    fold_left (bufferAppend cap) cs [] = skipn (List.length cs - cap) cs.
Proof.
  intros cap cs. induction cs as [|c cs IH] using rev_ind.
  - reflexivity.
  - rewrite fold_left_app. cbn [fold_left]. rewrite IH.
    rewrite length_app. cbn [List.length].
    unfold bufferAppend. rewrite length_skipn.
    destruct (List.length cs - (List.length cs - cap) <? cap)%nat eqn:E.
    + apply Nat.ltb_lt in E.
      replace (List.length cs - cap)%nat with 0%nat by lia.
      replace (List.length cs + 1 - cap)%nat with 0%nat by lia.
      reflexivity.
    + apply Nat.ltb_ge in E.
      destruct (skipn (List.length cs - cap) cs) as [|oldest newer] eqn:S.
      * apply (f_equal (@List.length _)) in S. rewrite length_skipn in S.
        cbn in S. symmetry. apply skipn_all2. rewrite length_app. cbn. lia.
      * assert (List.length (oldest :: newer) = cap) as L.
        { rewrite <- S, length_skipn. lia. }
        cbn in L.
        replace (List.length cs + 1 - cap)%nat
          with (1 + (List.length cs - cap))%nat by lia.
        rewrite skipn_app.
        replace (1 + (List.length cs - cap) - List.length cs)%nat
          with 0%nat by lia.
        rewrite <- skipn_skipn, S. reflexivity.
Qed.

(* ================================================================== *)
(** ** Properties of the event consumer and the sweeper                *)
(* ================================================================== *)

Section EngineFacts.

Variable filterMatches : ConnectionFilter -> Z -> Z -> bool.
Variable resolvePorts : PortMapping -> Tuple -> Tuple.
Variable directionOf : Tuple -> Direction.

Let consume' := consume filterMatches resolvePorts directionOf.
Let sweep' := sweep.
Let step' := step filterMatches resolvePorts directionOf.
Let run' := run filterMatches resolvePorts directionOf.

Lemma capacity_setup :
  forall t t', setup t = setup t' -> capacity t = capacity t'.
Proof.
  unfold setup, capacity. intros t t' H. injection H as -> _ _ _. reflexivity.
Qed.



Lemma retire_setup : forall t c, setup (retire t c) = setup t.
Proof. reflexivity. Qed.

Lemma fold_retire_setup :
  forall dead t, setup (fold_left retire dead t) = setup t.
Proof.
  intros dead. induction dead as [|c dead IH]; cbn; intros t.
  - reflexivity.
  - rewrite IH. apply retire_setup.
Qed.

Lemma retire_withinCapacity :
  forall t c, withinCapacity t -> withinCapacity (retire t c).
Proof.
  unfold withinCapacity. intros t c H.
  rewrite (capacity_setup (retire t c) t (retire_setup t c)).
  cbn. apply bufferAppend_length. assumption.
Qed.

Lemma fold_retire_withinCapacity :
  forall dead t, withinCapacity t -> withinCapacity (fold_left retire dead t).
Proof.
  intros dead. induction dead as [|c dead IH]; cbn; intros t H.
  - assumption.
  - apply IH. apply retire_withinCapacity. assumption.
Qed.

(** The consumer, case by case. *)
Lemma consume_malformed :
  forall now s,
    consume' now Malformed s
    = onTracer (fun t => setPerfLost (perfLost t + 1) t) s.
Proof. reflexivity. Qed.

Lemma consume_excluded :
  forall now e s,
    excluded filterMatches (tracer s) (evTuple e) = true ->
    consume' now (WellFormed e) s
    = onTracer (fun t => setSkippedConns (skippedConns t + 1)
                           (setPerfReceived (perfReceived t + 1) t)) s.
Proof.
  intros now e s H. unfold consume', consume. cbn.
  change (excluded filterMatches _ (evTuple e))
    with (excluded filterMatches (tracer s) (evTuple e)).
  rewrite H. reflexivity.
Qed.

Lemma consume_close :
  forall now e s,
    excluded filterMatches (tracer s) (evTuple e) = false ->
    evKind e = Close ->
    consume' now (WellFormed e) s
    = let t := setPerfReceived (perfReceived (tracer s) + 1) (tracer s) in
      match remove (eventIdentity resolvePorts (tracer s) e) (active s) with
      | (Some c, tbl) => mkEngine (retire t c) tbl
      | (None, _) => mkEngine t (active s)
      end.
Proof.
  intros now e s H K. unfold consume', consume. cbn.
  change (excluded filterMatches _ (evTuple e))
    with (excluded filterMatches (tracer s) (evTuple e)).
  rewrite H, K. reflexivity.
Qed.

Lemma consume_upsert :
  forall now e s,
    excluded filterMatches (tracer s) (evTuple e) = false ->
    evKind e <> Close ->
    consume' now (WellFormed e) s
    = let t := setPerfReceived (perfReceived (tracer s) + 1) (tracer s) in
      let r := upsert directionOf (eventIdentity resolvePorts (tracer s) e)
                 (evDelta e) now (active s) in
      mkEngine (if snd r then setPidCollisions (pidCollisions t + 1) t else t)
               (fst r).
Proof.
  intros now e s H K. unfold consume', consume. cbn.
  change (excluded filterMatches _ (evTuple e))
    with (excluded filterMatches (tracer s) (evTuple e)).
  rewrite H.
  change (eventIdentity resolvePorts _ e)
    with (eventIdentity resolvePorts (tracer s) e).
  destruct (upsert directionOf (eventIdentity resolvePorts (tracer s) e)
              (evDelta e) now (active s)) as [tbl [|]];
    destruct (evKind e); try congruence; reflexivity.
Qed.

Lemma sweep_eq :
  forall now s,
    sweep' now s
    = let dead := filter (stale (tracer s) now) (active s) in
      let t := fold_left retire dead (tracer s) in
      mkEngine
        (setExpiredTCPConns (expiredTCPConns t + Z.of_nat (List.length dead)) t)
        (filter (fun c => negb (stale (tracer s) now c)) (active s)).
Proof.
  intros now s. unfold sweep', sweep. rewrite partition_as_filter. reflexivity.
Qed.

Lemma consume_setup :
  forall now r s, setup (tracer (consume' now r s)) = setup (tracer s).
Proof.
  intros now [|e] s; [reflexivity|].
  destruct (excluded filterMatches (tracer s) (evTuple e)) eqn:X.
  - rewrite consume_excluded by assumption. reflexivity.
  - destruct (evKind e) eqn:K.
    + rewrite consume_upsert by congruence. cbn.
      destruct (snd (upsert _ _ _ _ _)); reflexivity.
    + rewrite consume_upsert by congruence. cbn.
      destruct (snd (upsert _ _ _ _ _)); reflexivity.
    + rewrite consume_close by assumption. cbn.
      destruct (remove _ _) as [[c|] tbl]; reflexivity.
Qed.

Lemma sweep_setup :
  forall now s, setup (tracer (sweep' now s)) = setup (tracer s).
Proof.
  intros now s. rewrite sweep_eq. cbn.
  change (setup (setExpiredTCPConns ?v ?t)) with (setup t).
  apply fold_retire_setup.
Qed.

Lemma step_setup :
  forall s i, setup (tracer (step' s i)) = setup (tracer s).
Proof.
  intros s [now r|now]; [apply consume_setup | apply sweep_setup].
Qed.

Lemma run_setup :
  forall inputs s, setup (tracer (run' inputs s)) = setup (tracer s).
Proof.
  intros inputs. induction inputs as [|i inputs IH]; intros s.
  - reflexivity.
  - change (run' (i :: inputs) s) with (run' inputs (step' s i)).
    rewrite IH. apply step_setup.
Qed.

(** Every record of the stream leaves the invariant in place. *)
Lemma consume_invariant :
  forall now r s, invariant s -> invariant (consume' now r s).
Proof.
  intros now [|e] s (Hid & Htu & Hcap).
  - rewrite consume_malformed. repeat split; assumption.
  - destruct (excluded filterMatches (tracer s) (evTuple e)) eqn:X.
    + rewrite consume_excluded by assumption. repeat split; assumption.
    + assert (forall k, evKind e = k -> k <> Close ->
                invariant (consume' now (WellFormed e) s)) as Hup.
      { intros k K Hk. rewrite consume_upsert by congruence. cbn.
        repeat split; cbn.
        - apply upsert_uniqueIdentities. assumption.
        - apply upsert_uniqueTuples. assumption.
        - destruct (snd (upsert _ _ _ _ _)); assumption. }
      destruct (evKind e) eqn:K.
      * apply (Hup Open); congruence.
      * apply (Hup StatsUpdate); congruence.
      * rewrite consume_close by assumption. cbn.
        pose proof (remove_table (eventIdentity resolvePorts (tracer s) e)
                      (active s)) as Htbl.
        destruct (remove _ _) as [[c|] tbl]; cbn in Htbl; subst tbl.
        -- repeat split; cbn.
           ++ apply NoDup_map_filter. assumption.
           ++ apply NoDup_map_filter. assumption.
           ++ apply (retire_withinCapacity
                       (setPerfReceived (perfReceived (tracer s) + 1) (tracer s))).
              assumption.
        -- repeat split; assumption.
Qed.

(** Every pass of the sweeper leaves the invariant in place. *)
Lemma sweep_invariant :
  forall now s, invariant s -> invariant (sweep' now s).
Proof.
  intros now s (Hid & Htu & Hcap). rewrite sweep_eq. repeat split; cbn.
  - apply NoDup_map_filter. assumption.
  - apply NoDup_map_filter. assumption.
  - change (withinCapacity (setExpiredTCPConns ?v ?t)) with (withinCapacity t).
    apply fold_retire_withinCapacity. assumption.
Qed.

Lemma step_invariant :
  forall s i, invariant s -> invariant (step' s i).
Proof.
  intros s [now r|now]; [apply consume_invariant | apply sweep_invariant].
Qed.

Lemma run_invariant :
  forall inputs s, invariant s -> invariant (run' inputs s).
Proof.
  intros inputs. induction inputs as [|i inputs IH]; intros s H.
  - assumption.
  - apply (IH (step' s i)). apply step_invariant. assumption.
Qed.

Lemma NewEngine_invariant :
  forall cfg pm, invariant (NewEngine cfg pm).
Proof.
  intros cfg pm. repeat split.
  - constructor.
  - constructor.
  - unfold withinCapacity. cbn. lia.
Qed.

Lemma reachable_invariant :
  forall cfg pm inputs, invariant (run' inputs (NewEngine cfg pm)).
Proof.
  intros cfg pm inputs. apply run_invariant. apply NewEngine_invariant.
Qed.

(** C4: whatever records arrive on the stream and whenever the sweeper
    runs, the active table of the engine never holds two entries with the
    same identity (tuple, pid).  The operations on the table keep the
    property: see [upsert_uniqueIdentities] for upsert, [remove_table] with
    [NoDup_map_filter] for remove, [sweep_invariant] for the sweeper. *)
Theorem active_table_unique_identities :
  forall (cfg : Config) (pm : PortMapping) (inputs : list Input),
    uniqueIdentities
      (active (run filterMatches resolvePorts directionOf inputs
                 (NewEngine cfg pm))).
Proof.
  intros cfg pm inputs.
  destruct (reachable_invariant cfg pm inputs) as (H & _ & _). exact H.
Qed.

(** C5: after any sequence of appends to an empty bounded buffer, the
    buffer holds exactly the entries appended last, as many as its capacity
    allows and in the order they were appended, so never more than its
    capacity; and when the buffer is full, one more append drops exactly the
    entry that was appended earliest among those it holds, keeps all the
    later ones in order and puts the new entry last.  The buffer of the
    engine stays within the configured capacity whatever the engine is
    fed. *)
Theorem bounded_buffer_fifo :
  forall (cap : nat) (cs : list ConnectionStats),
    let buf := fold_left (bufferAppend cap) cs [] in
    buf = skipn (List.length cs - cap) cs /\
    (List.length buf <= cap)%nat /\
    (forall older oldest newer c,
       cs = older ++ oldest :: newer ->
       List.length (oldest :: newer) = cap ->
       buf = oldest :: newer /\
       bufferAppend cap buf c = newer ++ [c] /\
       fold_left (bufferAppend cap) (cs ++ [c]) [] = newer ++ [c]) /\
    (forall cfg pm inputs,
       (List.length
          (buffer (tracer (run filterMatches resolvePorts directionOf inputs
                             (NewEngine cfg pm))))
        <= bufferCapacity cfg)%nat).
Proof.
  intros cap cs buf.
  assert (buf = skipn (List.length cs - cap) cs) as Hbuf
    by apply fold_bufferAppend_last.
  split; [exact Hbuf|]. split; [|split].
  - apply fold_bufferAppend_length. cbn. lia.
  - intros older oldest newer c E L.
    assert (buf = oldest :: newer) as Hfull.
    { rewrite Hbuf, E, length_app, L.
      replace (List.length older + cap - cap)%nat
        with (List.length older + 0)%nat by lia.
      rewrite skipn_app, Nat.add_0_r, skipn_all.
      replace (List.length older - List.length older)%nat with 0%nat by lia.
      reflexivity. }
    assert (bufferAppend cap buf c = newer ++ [c]) as Hnext.
    { rewrite Hfull. apply bufferAppend_full. assumption. }
    split; [exact Hfull|]. split; [exact Hnext|].
    rewrite fold_left_app. cbn [fold_left]. exact Hnext.
  - intros cfg pm inputs.
    destruct (reachable_invariant cfg pm inputs) as (_ & _ & H).
    unfold withinCapacity in H.
    rewrite (capacity_setup _ _ (run_setup inputs (NewEngine cfg pm))) in H.
    exact H.
Qed.





(** C7: a close event whose identity is not in the active table leaves the
    table and the bounded buffer as they are and is not counted as lost,
    while the events-received counter goes up by 1. *)
Theorem close_unknown_identity_noop :
  forall (s : Engine) (now : Z) (e : Event),
    let s' := consume filterMatches resolvePorts directionOf now (WellFormed e) s in
    evKind e = Close ->
    ~ In (eventIdentity resolvePorts (tracer s) e) (map identity (active s)) ->
    active s' = active s /\
    buffer (tracer s') = buffer (tracer s) /\
    perfReceived (tracer s') = perfReceived (tracer s) + 1 /\
    perfLost (tracer s') = perfLost (tracer s).
Proof.
  intros s now e s' K Habs. subst s'.
  destruct (excluded filterMatches (tracer s) (evTuple e)) eqn:X.
  - rewrite consume_excluded by assumption. cbn. repeat split.
  - rewrite consume_close by assumption.
    rewrite remove_absent by assumption. cbn. repeat split.
Qed.

End EngineFacts.

(** *** Concrete runs *)

Lemma bounded_buffer_fifo_witness :
  fold_left (bufferAppend 2) [sampleClosed 1; sampleClosed 2; sampleClosed 3] []
  = [sampleClosed 2; sampleClosed 3] /\
  (List.length
     (fold_left (bufferAppend 2) [sampleClosed 1; sampleClosed 2; sampleClosed 3] [])
   <= 2)%nat /\
  fold_left (bufferAppend 2)
    ([sampleClosed 1; sampleClosed 2; sampleClosed 3] ++ [sampleClosed 4]) []
  = [sampleClosed 3; sampleClosed 4].
Proof.
  destruct (bounded_buffer_fifo cidrMatches noTranslation byLocalPort 2
              [sampleClosed 1; sampleClosed 2; sampleClosed 3])
    as (_ & Hlen & Hfull & _).
  destruct (Hfull [sampleClosed 1] (sampleClosed 2) [sampleClosed 3]
              (sampleClosed 4) eq_refl eq_refl) as (Hbuf & _ & Hnext).
  split; [exact Hbuf|]. split; [exact Hlen|exact Hnext].
Defined.


Lemma close_unknown_identity_noop_witness :
  active (sampleRun [Perf 1 (WellFormed (sampleEvent 100 Open 7));
                     Perf 2 (WellFormed (sampleEvent 200 Close 0))])
  = active (sampleRun [Perf 1 (WellFormed (sampleEvent 100 Open 7))]) /\
  buffer (tracer (sampleRun [Perf 1 (WellFormed (sampleEvent 100 Open 7));
                             Perf 2 (WellFormed (sampleEvent 200 Close 0))]))
  = buffer (tracer (sampleRun [Perf 1 (WellFormed (sampleEvent 100 Open 7))])) /\
  perfReceived (tracer (sampleRun [Perf 1 (WellFormed (sampleEvent 100 Open 7));
                                   Perf 2 (WellFormed (sampleEvent 200 Close 0))]))
  = perfReceived (tracer (sampleRun [Perf 1 (WellFormed (sampleEvent 100 Open 7))])) + 1 /\
  perfLost (tracer (sampleRun [Perf 1 (WellFormed (sampleEvent 100 Open 7));
                               Perf 2 (WellFormed (sampleEvent 200 Close 0))]))
  = perfLost (tracer (sampleRun [Perf 1 (WellFormed (sampleEvent 100 Open 7))])).
Proof.
  apply (close_unknown_identity_noop cidrMatches noTranslation byLocalPort
           (sampleRun [Perf 1 (WellFormed (sampleEvent 100 Open 7))]) 2
           (sampleEvent 200 Close 0)).
  - reflexivity.
  - cbn. intros [H|[]]. discriminate H.
Defined.

(** The scenario of section 8: open, then 500 bytes sent, then close. *)
Example scenario_open_update_close :
  map bytesSent
    (active (sampleRun [Perf 1 (WellFormed (sampleEvent 100 Open 0));
                        Perf 2 (WellFormed (sampleEvent 100 StatsUpdate 500))]))
  = [500] /\
  active (sampleRun [Perf 1 (WellFormed (sampleEvent 100 Open 0));
                     Perf 2 (WellFormed (sampleEvent 100 StatsUpdate 500));
                     Perf 3 (WellFormed (sampleEvent 100 Close 0))])
  = [] /\
  map (fun c => (bytesSent c, closed c))
    (buffer (tracer (sampleRun
       [Perf 1 (WellFormed (sampleEvent 100 Open 0));
        Perf 2 (WellFormed (sampleEvent 100 StatsUpdate 500));
        Perf 3 (WellFormed (sampleEvent 100 Close 0))])))
  = [(500, true)].
Proof. repeat split. Qed.

(** A connection left idle beyond the staleness threshold is swept once. *)
Example scenario_sweep_once :
  let s := sampleRun [Perf 1 (WellFormed (sampleEvent 100 Open 7));
                      Tick 100; Tick 200; Tick 300] in
  active s = [] /\ expiredTCPConns (tracer s) = 1
  /\ List.length (buffer (tracer s)) = 1%nat.
Proof. repeat split. Qed.


(* ================================================================== *)
(** ** More on the EC2 default-hostname tests                          *)
(* ================================================================== *)

Section MoreHostnameFacts.

Local Open Scope string_scope.

Variable unicodeToLower : string -> string.

(** With Windows prefix detection a hostname is a default one exactly when
    it is a default one for the intake or a Windows default one; so every
    default hostname for the intake stays one with the detection on. *)
Theorem windows_detection_extends_intake :
  forall h : string,
    Ec2.IsDefaultHostname unicodeToLower true h =
    Ec2.IsDefaultHostnameForIntake unicodeToLower h
    || Ec2.IsWindowsDefaultHostname unicodeToLower h.
Proof.
  intros h.
  unfold Ec2.IsDefaultHostname, Ec2.IsDefaultHostnameForIntake,
    Ec2.IsWindowsDefaultHostname.
  rewrite isDefaultHostname_old, isDefaultHostname_windows.
  destruct (Ec2.HasPrefix (Ec2.ToLower unicodeToLower h) "ip-"),
    (Ec2.HasPrefix (Ec2.ToLower unicodeToLower h) "domu"),
    (Ec2.HasPrefix (Ec2.ToLower unicodeToLower h) "ec2amaz-");
    reflexivity.
Qed.

Lemma lowerBytes_no_upper :
  forall s, Ec2.hasUpper s = false -> Ec2.lowerBytes s = s.
Proof.
  induction s as [|c s IH]; cbn; intros H; [reflexivity|].
  apply orb_false_iff in H. destruct H as [Hc Hs].
  unfold Ec2.lowerByte. rewrite Hc, (IH Hs). reflexivity.
Qed.

Lemma ToLower_ascii :
  forall s, Ec2.isASCII s = true -> Ec2.ToLower unicodeToLower s = Ec2.lowerBytes s.
Proof.
  intros s H. unfold Ec2.ToLower. rewrite H.
  destruct (Ec2.hasUpper s) eqn:U; [reflexivity|].
  symmetry. apply lowerBytes_no_upper. assumption.
Qed.

(** On hostnames made of ASCII bytes the test does not see the case of
    letters: two hostnames with the same lower-case bytes get the same
    answer, with or without Windows prefix detection. *)
Theorem default_hostname_ignores_ascii_case :
  forall (h1 h2 : string) (useWindowsPrefix : bool),
    Ec2.isASCII h1 = true -> Ec2.isASCII h2 = true ->
    Ec2.lowerBytes h1 = Ec2.lowerBytes h2 ->
    Ec2.isDefaultHostname unicodeToLower h1 useWindowsPrefix
    = Ec2.isDefaultHostname unicodeToLower h2 useWindowsPrefix.
Proof.
  intros h1 h2 w A1 A2 E. unfold Ec2.isDefaultHostname.
  rewrite (ToLower_ascii h1 A1), (ToLower_ascii h2 A2), E. reflexivity.
Qed.

End MoreHostnameFacts.

Lemma default_hostname_ignores_ascii_case_witness :
  Ec2.isDefaultHostname (fun s => s) "Ip-10-0-0-1"%string true
  = Ec2.isDefaultHostname (fun s => s) "iP-10-0-0-1"%string true.
Proof.
  apply (default_hostname_ignores_ascii_case (fun s => s)
           "Ip-10-0-0-1"%string "iP-10-0-0-1"%string true);
    reflexivity.
Defined.

(* ================================================================== *)
(** ** Properties of string splitting and of the cluster name          *)
(* ================================================================== *)

Section ClusterNameFacts.

Import GoStrings Ec2Tags.

Local Open Scope string_scope.

Lemma append_nil_r : forall s : string, s ++ "" = s.
Proof. induction s as [|a s IH]; cbn; [|rewrite IH]; reflexivity. Qed.

Lemma append_assoc :
  forall s1 s2 s3 : string, (s1 ++ s2) ++ s3 = s1 ++ (s2 ++ s3).
Proof. induction s1 as [|a s IH]; cbn; intros; [|rewrite IH]; reflexivity. Qed.

Lemma contains_app :
  forall c s1 s2, contains c (s1 ++ s2) = contains c s1 || contains c s2.
Proof.
  induction s1 as [|a s IH]; cbn; intros s2; [reflexivity|].
  rewrite IH, orb_assoc. reflexivity.
Qed.

Lemma HasPrefix_spec :
  forall p s, Ec2.HasPrefix s p = true <-> exists r, s = p ++ r.
Proof.
  unfold Ec2.HasPrefix.
  induction p as [|b p IH]; intros s.
  - split; [intros _; exists s; reflexivity|].
    intros _. destruct s; reflexivity.
  - destruct s as [|a s].
    + split; [discriminate|]. intros [r H]. discriminate H.
    + cbn. specialize (IH s). cbn in IH.
      destruct (Ascii.eqb a b) eqn:E.
      * apply Ascii.eqb_eq in E. subst b. rewrite IH.
        split; intros [r H]; exists r; [rewrite H; reflexivity|].
        injection H as H. exact H.
      * split.
        -- rewrite andb_false_r. discriminate.
        -- intros [r H]. injection H as H _. subst b.
           rewrite Ascii.eqb_refl in E. discriminate E.
Qed.

(** [Split] always yields a first piece. *)
Lemma Split_cons :
  forall s c, exists piece pieces, Split s c = piece :: pieces.
Proof.
  induction s as [|a s IH]; intros c; cbn.
  - eauto.
  - destruct (Ascii.eqb a c); [eauto|].
    destruct (IH c) as (p & ps & ->). eauto.
Qed.

Lemma Split_app_free :
  forall p s c piece pieces,
    contains c p = false ->
    Split s c = piece :: pieces ->
    Split (p ++ s) c = (p ++ piece) :: pieces.
Proof.
  induction p as [|a p IH]; cbn; intros s c piece pieces F H.
  - exact H.
  - apply orb_false_iff in F. destruct F as [Fa Fp].
    rewrite Fa, (IH s c piece pieces Fp H). reflexivity.
Qed.

Lemma Split_free :
  forall p c, contains c p = false -> Split p c = [p].
Proof.
  induction p as [|a p IH]; cbn; intros c F; [reflexivity|].
  apply orb_false_iff in F. destruct F as [Fa Fp].
  rewrite Fa, (IH c Fp). reflexivity.
Qed.

Lemma Split_app_sep :
  forall p s c,
    contains c p = false ->
    Split (p ++ String c s) c = p :: Split s c.
Proof.
  intros p s c F.
  rewrite (Split_app_free p (String c s) c "" (Split s c) F).
  - rewrite append_nil_r. reflexivity.
  - cbn. rewrite Ascii.eqb_refl. reflexivity.
Qed.

(** The first piece of a split is free of the separator, and the string is
    that piece alone or that piece, the separator and more. *)
Lemma Split_first_piece :
  forall s c,
    contains c (hd "" (Split s c)) = false /\
    exists r, s = hd "" (Split s c) ++ r /\
              (r = "" \/ exists r', r = String c r').
Proof.
  induction s as [|a s IH]; intros c; cbn.
  - split; [reflexivity|]. exists "". split; [reflexivity|left; reflexivity].
  - destruct (Ascii.eqb a c) eqn:E; cbn.
    + apply Ascii.eqb_eq in E. subst a.
      split; [reflexivity|]. exists (String c s). split; [reflexivity|].
      right. exists s. reflexivity.
    + destruct (IH c) as (F & r & Hs & Hr).
      destruct (Split s c) as [|piece pieces]; cbn in *.
      * split; [rewrite E; reflexivity|].
        exists r. split; [rewrite Hs at 1; reflexivity|assumption].
      * split; [rewrite E, F; reflexivity|].
        exists r. split; [rewrite Hs at 1; reflexivity|assumption].
Qed.

Lemma hd_Split_app_free :
  forall p s c,
    contains c p = false ->
    hd "" (Split (p ++ s) c) = p ++ hd "" (Split s c).
Proof.
  intros p s c F. destruct (Split_cons s c) as (piece & pieces & E).
  rewrite (Split_app_free p s c piece pieces F E), E. reflexivity.
Qed.

Lemma hd_Split_boundary :
  forall p r c,
    contains c p = false ->
    r = "" \/ (exists r', r = String c r') ->
    hd "" (Split (p ++ r) c) = p.
Proof.
  intros p r c F [->|[r' ->]].
  - rewrite append_nil_r, (Split_free p c F). reflexivity.
  - rewrite (Split_app_sep p r' c F). reflexivity.
Qed.

(** The cluster name a tag with the prefix gives: what follows the prefix,
    up to the first colon, up to the first slash. *)
Lemma clusterNameOf_prefixed :
  forall rest others,
    clusterNameOf ((clusterTagPrefix ++ rest) :: others)
    = Returns (hd "" (Split (hd "" (Split rest ":")) "/")).
Proof.
  intros rest others. cbn [clusterNameOf].
  assert (Ec2.HasPrefix (clusterTagPrefix ++ rest) clusterTagPrefix = true) as ->.
  { apply HasPrefix_spec. exists rest. reflexivity. }
  destruct (Split_cons rest ":") as (h & t & E).
  rewrite (Split_app_free clusterTagPrefix rest ":" h t eq_refl E), E.
  cbn [nth_error hd].
  change (clusterTagPrefix ++ h)
    with ("kubernetes.io" ++ String "/" ("cluster" ++ String "/" h)).
  rewrite (Split_app_sep "kubernetes.io" _ "/" eq_refl).
  rewrite (Split_app_sep "cluster" _ "/" eq_refl).
  destruct (Split_cons h "/") as (n & ns & ->). reflexivity.
Qed.

Lemma clusterNameOf_skip :
  forall pre tags,
    forallb (fun tag => negb (Ec2.HasPrefix tag clusterTagPrefix)) pre = true ->
    clusterNameOf (pre ++ tags)%list = clusterNameOf tags.
Proof.
  induction pre as [|tag pre IH]; cbn; intros tags H; [reflexivity|].
  apply andb_true_iff in H. destruct H as [Ht Hpre].
  apply negb_true_iff in Ht. rewrite Ht. apply IH. assumption.
Qed.

(** [extractClusterName] never panics: a tag with the prefix always has the
    three pieces that [strings.Split(key, "/")[2]] needs. *)
Theorem extractClusterName_never_panics :
  forall tags : list string, extractClusterName tags <> Panics.
Proof.
  intros tags. unfold extractClusterName.
  assert (exists n, clusterNameOf tags = Returns n) as [n ->].
  { induction tags as [|tag tags IH]; [exists ""; reflexivity|].
    destruct (Ec2.HasPrefix tag clusterTagPrefix) eqn:E.
    - apply HasPrefix_spec in E. destruct E as [rest ->].
      rewrite clusterNameOf_prefixed. eauto.
    - cbn [clusterNameOf]. rewrite E. exact IH. }
  destruct (String.eqb n ""); discriminate.
Qed.

(** Before the first tag with the prefix nothing counts, and after it
    nothing either: the result is that of this tag alone, also when this
    tag yields no name and a later one would. *)
Theorem extractClusterName_first_prefixed_tag :
  forall (pre post : list string) (tag : string),
    forallb (fun t => negb (Ec2.HasPrefix t clusterTagPrefix)) pre = true ->
    Ec2.HasPrefix tag clusterTagPrefix = true ->
    extractClusterName (pre ++ tag :: post)%list = extractClusterName [tag].
Proof.
  intros pre post tag Hpre Htag. unfold extractClusterName.
  rewrite (clusterNameOf_skip pre _ Hpre).
  apply HasPrefix_spec in Htag. destruct Htag as [rest ->].
  rewrite !clusterNameOf_prefixed. reflexivity.
Qed.

(** Without a tag that has the prefix (so also without any tag) the
    function fails with its parse error. *)
Theorem extractClusterName_no_prefixed_tag :
  forall tags : list string,
    forallb (fun t => negb (Ec2.HasPrefix t clusterTagPrefix)) tags = true ->
    extractClusterName tags
    = Returns ("", Some "unable to parse cluster name from EC2 tags").
Proof.
  intros tags H. unfold extractClusterName.
  rewrite <- (app_nil_r tags), (clusterNameOf_skip tags [] H). reflexivity.
Qed.

(** A tag made of the prefix, a name free of colons and slashes and not
    empty, and then nothing or something that starts with a colon or a
    slash, gives back this name, when no earlier tag has the prefix. *)
Theorem extractClusterName_well_formed_tag :
  forall (pre post : list string) (name rest : string),
    forallb (fun t => negb (Ec2.HasPrefix t clusterTagPrefix)) pre = true ->
    contains ":" name = false -> contains "/" name = false ->
    name <> "" ->
    rest = "" \/ (exists r, rest = String ":" r) \/ (exists r, rest = String "/" r) ->
    extractClusterName
      (app pre ((clusterTagPrefix ++ name ++ rest) :: post))
    = Returns (name, None).
Proof.
  intros pre post name rest Hpre Hcolon Hslash Hne Hrest.
  unfold extractClusterName.
  rewrite (clusterNameOf_skip pre _ Hpre), clusterNameOf_prefixed.
  assert (hd "" (Split (hd "" (Split (name ++ rest) ":")) "/") = name) as ->.
  { destruct Hrest as [->|[[r ->]|[r ->]]].
    - rewrite append_nil_r, (Split_free name ":" Hcolon). cbn [hd].
      rewrite (Split_free name "/" Hslash). reflexivity.
    - rewrite (Split_app_sep name r ":" Hcolon). cbn [hd].
      rewrite (Split_free name "/" Hslash). reflexivity.
    - rewrite (hd_Split_app_free name _ ":" Hcolon).
      destruct (Split_cons r ":") as (p & ps & E).
      cbn. rewrite E. cbn [hd].
      rewrite (Split_app_sep name p "/" Hslash). reflexivity. }
  apply String.eqb_neq in Hne. rewrite Hne. reflexivity.
Qed.

Lemma clusterNameOf_origin :
  forall tags n,
    clusterNameOf tags = Returns n ->
    n = "" \/
    exists rest0,
      In (clusterTagPrefix ++ rest0) tags /\
      n = hd "" (Split (hd "" (Split rest0 ":")) "/").
Proof.
  induction tags as [|tag tags IH]; intros n E.
  - cbn in E. injection E as <-. left. reflexivity.
  - destruct (Ec2.HasPrefix tag clusterTagPrefix) eqn:P.
    + apply HasPrefix_spec in P. destruct P as [rest0 ->].
      rewrite clusterNameOf_prefixed in E. injection E as <-.
      right. exists rest0. split; [left; reflexivity|reflexivity].
    + cbn [clusterNameOf] in E. rewrite P in E.
      destruct (IH n E) as [->|(rest0 & Hin & Hn)]; [left; reflexivity|].
      right. exists rest0. split; [right; assumption|assumption].
Qed.

(** A name the function returns is not empty, holds no colon and no slash,
    and stands in one of the tags right after the prefix, followed by
    nothing, a colon or a slash. *)
Theorem extractClusterName_sound :
  forall (tags : list string) (name : string),
    extractClusterName tags = Returns (name, None) ->
    name <> "" /\ contains ":" name = false /\ contains "/" name = false /\
    exists rest,
      In (clusterTagPrefix ++ name ++ rest) tags /\
      (rest = "" \/ (exists r, rest = String ":" r)
       \/ (exists r, rest = String "/" r)).
Proof.
  intros tags name H. unfold extractClusterName in H.
  destruct (clusterNameOf tags) as [n|] eqn:E; [|discriminate H].
  destruct (String.eqb n "") eqn:En; [discriminate H|].
  injection H as ->. apply String.eqb_neq in En.
  split; [assumption|].
  destruct (clusterNameOf_origin tags name E) as [->|(rest0 & Hin & Hn)];
    [congruence|].
  destruct (Split_first_piece rest0 ":") as (F1 & r1 & E1 & B1).
  destruct (Split_first_piece (hd "" (Split rest0 ":")) "/")
    as (F2 & r2 & E2 & B2).
  rewrite <- Hn in F2, E2.
  rewrite E2 in F1, E1. rewrite contains_app in F1.
  apply orb_false_iff in F1. destruct F1 as [F1 _].
  repeat split; try assumption.
  exists (r2 ++ r1). split.
  - rewrite E1, append_assoc in Hin. assumption.
  - destruct B2 as [->|[r' ->]].
    + cbn. destruct B1 as [->|[r'' ->]]; [left; reflexivity|].
      right. left. exists r''. reflexivity.
    + right. right. exists (r' ++ r1). reflexivity.
Qed.

End ClusterNameFacts.

Lemma extractClusterName_first_prefixed_tag_witness :
  Ec2Tags.extractClusterName
    ["Name:web"; "kubernetes.io/cluster/:owned"; "kubernetes.io/cluster/prod:owned"]%string
  = Ec2Tags.extractClusterName ["kubernetes.io/cluster/:owned"%string].
Proof.
  apply (extractClusterName_first_prefixed_tag
           ["Name:web"%string] ["kubernetes.io/cluster/prod:owned"%string]
           "kubernetes.io/cluster/:owned"%string);
    reflexivity.
Defined.

Lemma extractClusterName_no_prefixed_tag_witness :
  Ec2Tags.extractClusterName ["Name:web"; "env:kubernetes.io/cluster/x"]%string
  = Ec2Tags.Returns
      (""%string, Some "unable to parse cluster name from EC2 tags"%string).
Proof.
  apply (extractClusterName_no_prefixed_tag
           ["Name:web"; "env:kubernetes.io/cluster/x"]%string).
  reflexivity.
Defined.

Lemma extractClusterName_well_formed_tag_witness :
  Ec2Tags.extractClusterName
    ["Name:web"; "kubernetes.io/cluster/prod-1:owned"; "kubernetes.io/cluster/other"]%string
  = Ec2Tags.Returns ("prod-1"%string, None).
Proof.
  apply (extractClusterName_well_formed_tag
           ["Name:web"%string] ["kubernetes.io/cluster/other"%string]
           "prod-1"%string ":owned"%string).
  - reflexivity.
  - reflexivity.
  - reflexivity.
  - discriminate.
  - right. left. exists "owned"%string. reflexivity.
Defined.

Lemma extractClusterName_sound_witness :
  "prod-1"%string <> ""%string /\
  GoStrings.contains ":" "prod-1" = false /\
  GoStrings.contains "/" "prod-1" = false /\
  exists rest : string,
    In (Ec2Tags.clusterTagPrefix ++ "prod-1" ++ rest)%string
       ["Name:web"; "kubernetes.io/cluster/prod-1/a:owned"]%string /\
    (rest = ""%string \/ (exists r, rest = String ":" r)
     \/ (exists r, rest = String "/" r)).
Proof.
  apply (extractClusterName_sound
           ["Name:web"; "kubernetes.io/cluster/prod-1/a:owned"]%string
           "prod-1"%string).
  reflexivity.
Defined.


(* ================================================================== *)
(** ** Properties of the check builder                                 *)
(* ================================================================== *)

Section BuilderFacts.

Context {File DockerResource Reporter DockerClient : Type}.

Let Rule : Type := @Checks.Rule File DockerResource.
Let Resource : Type := @Checks.Resource File DockerResource.
Let builder : Type := @Checks.builder Reporter DockerClient.

Lemma checkFromResources_skip :
  forall (b : option builder) meta ruleID (pre rest : list Resource),
    existsb Checks.supported pre = false ->
    Checks.checkFromResources b meta ruleID (pre ++ rest)
    = Checks.checkFromResources b meta ruleID rest.
Proof.
  intros b meta ruleID pre rest. induction pre as [|res pre IH]; cbn; intros H.
  - reflexivity.
  - apply orb_false_iff in H. destruct H as [Hres Hpre].
    unfold Checks.supported in Hres.
    destruct (Checks.resFile res); [discriminate Hres|].
    destruct (Checks.resDocker res); [discriminate Hres|].
    apply IH. assumption.
Qed.

(** A rule without a file or Docker resource, a rule without resources
    included, gets no check and the error ErrResourceNotSupported, whatever
    the builder and the suite metadata (nil included). *)
Theorem CheckFromRule_no_supported_resource :
  forall (b : option builder) (meta : option Checks.SuiteMeta) (r : Rule),
    existsb Checks.supported (Checks.Resources r) = false ->
    Checks.CheckFromRule b meta (Some r)
    = Ec2Tags.Returns (None, Some Checks.ErrResourceNotSupported).
Proof.
  intros b meta r H. unfold Checks.CheckFromRule.
  rewrite <- (app_nil_r (Checks.Resources r)).
  rewrite (checkFromResources_skip b meta _ _ [] H). reflexivity.
Qed.

(** The first resource that has a file or a Docker part decides, and its
    file part comes first: the rule gets a file check on that file, whether
    or not the resource has a Docker part too and whatever resources
    follow.  The check carries the rule's id (as id and as rule id), the
    builder's interval and reporter, and the suite's framework and
    version. *)
Theorem CheckFromRule_first_file :
  forall (b : builder) (m : Checks.SuiteMeta) (r : Rule)
         (pre post : list Resource) (res : Resource) (file : File),
    Checks.Resources r = pre ++ res :: post ->
    existsb Checks.supported pre = false ->
    Checks.resFile res = Some file ->
    Checks.CheckFromRule (Some b) (Some m) (Some r)
    = Ec2Tags.Returns
        (Some (Checks.fileCheckOf
                 {| Checks.id := Checks.ID r;
                    Checks.interval := Checks.checkInterval b;
                    Checks.reporter := Checks.envReporter (Checks.env b);
                    Checks.framework := Checks.Framework m;
                    Checks.version := Checks.Version m;
                    Checks.ruleID := Checks.ID r |}
                 file),
         None).
Proof.
  intros b m r pre post res file E Hpre Hfile. unfold Checks.CheckFromRule.
  rewrite E, (checkFromResources_skip (Some b) _ _ pre _ Hpre). cbn.
  rewrite Hfile. reflexivity.
Qed.

(** When the first resource that has a file or a Docker part has no file
    part, the rule gets a Docker check on its Docker part, with the Docker
    client of the builder's environment, whatever resources follow. *)
Theorem CheckFromRule_first_docker :
  forall (b : builder) (m : Checks.SuiteMeta) (r : Rule)
         (pre post : list Resource) (res : Resource) (docker : DockerResource),
    Checks.Resources r = pre ++ res :: post ->
    existsb Checks.supported pre = false ->
    Checks.resFile res = None ->
    Checks.resDocker res = Some docker ->
    Checks.CheckFromRule (Some b) (Some m) (Some r)
    = Ec2Tags.Returns
        (Some (Checks.dockerCheckOf
                 {| Checks.id := Checks.ID r;
                    Checks.interval := Checks.checkInterval b;
                    Checks.reporter := Checks.envReporter (Checks.env b);
                    Checks.framework := Checks.Framework m;
                    Checks.version := Checks.Version m;
                    Checks.ruleID := Checks.ID r |}
                 docker
                 (Checks.envDockerClient (Checks.env b))),
         None).
Proof.
  intros b m r pre post res docker E Hpre Hfile Hdocker.
  unfold Checks.CheckFromRule.
  rewrite E, (checkFromResources_skip (Some b) _ _ pre _ Hpre). cbn.
  rewrite Hfile, Hdocker. reflexivity.
Qed.

Lemma checkFromResources_panics :
  forall (b : option builder) meta ruleID (resources : list Resource),
    Checks.checkFromResources b meta ruleID resources = Ec2Tags.Panics <->
    (b = None \/ meta = None) /\ existsb Checks.supported resources = true.
Proof.
  intros b meta ruleID resources.
  induction resources as [|res resources IH]; cbn.
  - split; [discriminate|]. intros [_ H]. discriminate H.
  - unfold Checks.supported at 1, Checks.fileCheck, Checks.dockerCheck,
      Checks.baseCheckOf.
    destruct (Checks.resFile res) as [f|];
      [|destruct (Checks.resDocker res) as [d|]]; cbn.
    + destruct b, meta; split; try discriminate; try tauto;
        intros [[H|H] _]; discriminate H.
    + destruct b, meta; split; try discriminate; try tauto;
        intros [[H|H] _]; discriminate H.
    + exact IH.
Qed.

(** CheckFromRule panics in these cases and no other: the rule is nil; or
    the rule has a resource with a file or a Docker part while the builder
    or the suite metadata is nil. *)
Theorem CheckFromRule_panics_iff :
  forall (b : option builder) (meta : option Checks.SuiteMeta)
         (rule : option Rule),
    Checks.CheckFromRule b meta rule = Ec2Tags.Panics <->
    rule = None \/
    ((b = None \/ meta = None) /\
     exists r, rule = Some r /\
               existsb Checks.supported (Checks.Resources r) = true).
Proof.
  intros b meta [r|]; cbn.
  - rewrite checkFromResources_panics. split.
    + intros [Hm Hs]. right. split; [assumption|]. exists r. tauto.
    + intros [H|[Hm (r' & Hr & Hs)]]; [discriminate H|].
      injection Hr as <-. tauto.
  - split; [intros _; left; reflexivity | reflexivity].
Qed.

End BuilderFacts.

Lemma CheckFromRule_no_supported_resource_witness :
  Checks.CheckFromRule
    (Checks.NewBuilder 60 (Checks.mkBuilderEnv tt tt)) None
    (Some (Checks.mkRule "rule-1"%string
             [Checks.mkResource (File := string) (DockerResource := string)
                None None]))
  = Ec2Tags.Returns (None, Some Checks.ErrResourceNotSupported).
Proof.
  apply (CheckFromRule_no_supported_resource
           (Checks.NewBuilder 60 (Checks.mkBuilderEnv tt tt)) None
           (Checks.mkRule "rule-1"%string [Checks.mkResource None None])).
  reflexivity.
Defined.

Lemma CheckFromRule_first_file_witness :
  Checks.CheckFromRule
    (Checks.NewBuilder 60 (Checks.mkBuilderEnv tt tt))
    (Some (Checks.mkSuiteMeta "cis-docker" "1.2.0"))
    (Some (Checks.mkRule "rule-1"%string
             [Checks.mkResource None None;
              Checks.mkResource (Some "/etc/passwd"%string) (Some "image"%string);
              Checks.mkResource None (Some "container"%string)]))
  = Ec2Tags.Returns
      (Some (Checks.fileCheckOf
               (Checks.mkBaseCheck "rule-1" 60 tt "cis-docker" "1.2.0" "rule-1")
               "/etc/passwd"%string),
       None).
Proof.
  apply (CheckFromRule_first_file
           (Checks.mkBuilder 60 (Checks.mkBuilderEnv tt tt))
           (Checks.mkSuiteMeta "cis-docker" "1.2.0")
           (Checks.mkRule "rule-1"%string
              [Checks.mkResource None None;
               Checks.mkResource (Some "/etc/passwd"%string) (Some "image"%string);
               Checks.mkResource None (Some "container"%string)])
           [Checks.mkResource None None]
           [Checks.mkResource None (Some "container"%string)]
           (Checks.mkResource (Some "/etc/passwd"%string) (Some "image"%string))
           "/etc/passwd"%string);
    reflexivity.
Defined.

Lemma CheckFromRule_first_docker_witness :
  Checks.CheckFromRule
    (Checks.NewBuilder 60 (Checks.mkBuilderEnv tt 7))
    (Some (Checks.mkSuiteMeta "cis-docker" "1.2.0"))
    (Some (Checks.mkRule "rule-2"%string
             [Checks.mkResource None (Some "image"%string);
              Checks.mkResource (Some "/etc/passwd"%string) None]))
  = Ec2Tags.Returns
      (Some (Checks.dockerCheckOf
               (Checks.mkBaseCheck "rule-2" 60 tt "cis-docker" "1.2.0" "rule-2")
               "image"%string 7),
       None).
Proof.
  apply (CheckFromRule_first_docker
           (Checks.mkBuilder 60 (Checks.mkBuilderEnv tt 7))
           (Checks.mkSuiteMeta "cis-docker" "1.2.0")
           (Checks.mkRule "rule-2"%string
              [Checks.mkResource None (Some "image"%string);
               Checks.mkResource (Some "/etc/passwd"%string) None])
           []
           [Checks.mkResource (Some "/etc/passwd"%string) None]
           (Checks.mkResource None (Some "image"%string))
           "image"%string);
    reflexivity.
Defined.

Lemma CheckFromRule_panics_iff_witness :
  Checks.CheckFromRule
    (Checks.NewBuilder 60 (Checks.mkBuilderEnv tt tt)) None
    (Some (Checks.mkRule "rule-1"%string
             [Checks.mkResource (DockerResource := string)
                (Some "/etc/passwd"%string) None]))
  = Ec2Tags.Panics /\
  Checks.CheckFromRule
    (Reporter := unit) (DockerClient := unit) None
    (Some (Checks.mkSuiteMeta "cis-docker" "1.2.0"))
    (Some (Checks.mkRule "rule-1"%string
             [Checks.mkResource (File := string) None (Some "image"%string)]))
  = Ec2Tags.Panics.
Proof.
  split.
  - apply (CheckFromRule_panics_iff
             (Checks.NewBuilder 60 (Checks.mkBuilderEnv tt tt)) None
             (Some (Checks.mkRule "rule-1"%string
                      [Checks.mkResource (DockerResource := string)
                         (Some "/etc/passwd"%string) None]))).
    right. split; [right; reflexivity|]. eexists. split; reflexivity.
  - apply (CheckFromRule_panics_iff
             (Reporter := unit) (DockerClient := unit) None
             (Some (Checks.mkSuiteMeta "cis-docker" "1.2.0"))
             (Some (Checks.mkRule "rule-1"%string
                      [Checks.mkResource (File := string) None
                         (Some "image"%string)]))).
    right. split; [left; reflexivity|]. eexists. split; reflexivity.
Defined.


(* ================================================================== *)
(** ** Properties of the EC2 metadata client                           *)
(* ================================================================== *)

Section MetadataFacts.

Import GoStrings Ec2Tags Ec2Api.

Variable env : Env.

Ltac unfold_m :=
  unfold bind, ret, panic, timeNow, readToken, setExpirationDate, setValue,
    doRequest, cacheGetM, cacheSetM.

Lemma bind_done :
  forall (A B : Type) (m : M A) (k : A -> M B) w a w',
    m w = Done a w' -> bind m k w = k a w'.
Proof. intros A B m k w a w' H. unfold bind. rewrite H. reflexivity. Qed.

(** The token request of [getToken]. *)
Let tokenRequest : Request :=
  {| Method := MethodPut;
     URL := tokenURL;
     Header := [("X-aws-ec2-metadata-token-ttl-seconds"%string,
                 fmtInt (metadataTokenLifetime env))] |}.

(** [getToken], case by case: the token in memory is still valid at the
    first or at the second look; or the request cannot be built; or the
    refresh fails; or it succeeds. *)
Lemma getToken_cases :
  forall w,
    let n := nowCalls w in
    (exists k, (k = 1 \/ k = 2)%nat /\
       stillValid (clock env (n + k - 1)) (token w) = true /\
       getToken env w
       = Done (value (token w), None)
           (mkWorld (token w) (cache w) (n + k) (doCalls w)))
    \/
    (stillValid (clock env n) (token w) = false /\
     stillValid (clock env (S n)) (token w) = false /\
     ((exists err,
         newRequestError env MethodPut tokenURL = Some err /\
         getToken env w
         = Done (""%string, Some err)
             (mkWorld (token w) (cache w) (n + 2) (doCalls w)))
      \/
      (newRequestError env MethodPut tokenURL = None /\
       ((exists err,
           getToken env w
           = Done (""%string, Some err)
               (mkWorld (mkToken (clock env (n + 3)) (value (token w)))
                  (cache w) (n + 4) (S (doCalls w))))
        \/
        (exists v,
           clientDo env (doCalls w) (metadataTimeout env * Millisecond)
             tokenRequest
           = DoResponse {| StatusCode := 200; Body := ReadOk v |} /\
           getToken env w
           = Done (v, None)
               (mkWorld (mkToken (clock env (n + 2) + tokenLifetime env) v)
                  (cache w) (n + 3) (S (doCalls w)))))))).
Proof.
  intros w n. subst n. unfold getToken. unfold_m. cbn.
  destruct (stillValid (clock env (nowCalls w)) (token w)) eqn:V1.
  { left. exists 1%nat.
    replace (nowCalls w + 1 - 1)%nat with (nowCalls w) by lia.
    split; [left; reflexivity|]. split; [assumption|].
    replace (nowCalls w + 1)%nat with (S (nowCalls w)) by lia.
    reflexivity. }
  cbn. destruct (stillValid (clock env (S (nowCalls w))) (token w)) eqn:V2.
  { left. exists 2%nat.
    replace (nowCalls w + 2 - 1)%nat with (S (nowCalls w)) by lia.
    split; [right; reflexivity|]. split; [assumption|].
    replace (nowCalls w + 2)%nat with (S (S (nowCalls w))) by lia.
    reflexivity. }
  right. split; [reflexivity|]. split; [reflexivity|].
  replace (nowCalls w + 2)%nat with (S (S (nowCalls w))) by lia.
  replace (nowCalls w + 3)%nat with (S (S (S (nowCalls w)))) by lia.
  replace (nowCalls w + 4)%nat with (S (S (S (S (nowCalls w))))) by lia.
  destruct (newRequestError env MethodPut tokenURL) as [err|] eqn:NR.
  { left. exists err. split; reflexivity. }
  right. split; [reflexivity|]. cbn.
  fold tokenRequest.
  destruct (clientDo env (doCalls w) (metadataTimeout env * Millisecond)
              tokenRequest) as [err|[status body]] eqn:D.
  { left. eexists. reflexivity. }
  cbn. destruct (status =? 200) eqn:S200; cbn.
  - destruct body as [v|err].
    + right. exists v. apply Z.eqb_eq in S200. subst status.
      split; reflexivity.
    + left. eexists. reflexivity.
  - left. eexists. reflexivity.
Qed.

Lemma getToken_valid :
  forall w,
    stillValid (clock env (nowCalls w)) (token w) = true ->
    getToken env w
    = Done (value (token w), None)
        (mkWorld (token w) (cache w) (S (nowCalls w)) (doCalls w)).
Proof.
  intros w V. unfold getToken. unfold_m. cbn. rewrite V. reflexivity.
Qed.

Lemma getToken_done :
  forall w, exists t e w',
    getToken env w = Done (t, e) w' /\ cache w' = cache w.
Proof.
  intros w.
  destruct (getToken_cases w)
    as [(k & _ & _ & E)
       |(_ & _ & [(err & _ & E)|(_ & [(err & E)|(v & _ & E)])])];
    rewrite E; eauto.
Qed.

(** A token fetched from the metadata service is kept with an expiration
    date one token lifetime after the fetch, and every later call that
    reads the clock more than 15 seconds before that date returns this
    token from memory, without sending a request. *)
Theorem getToken_fetched_token_is_reused :
  forall (w w' : World) (v : string),
    getToken env w = Done (v, None) w' ->
    doCalls w' = S (doCalls w) ->
    token w' = mkToken (clock env (nowCalls w + 2) + tokenLifetime env) v /\
    forall w2 : World,
      token w2 = token w' ->
      clock env (nowCalls w2)
      < clock env (nowCalls w + 2) + tokenLifetime env - 15 * Second ->
      getToken env w2
      = Done (v, None)
          (mkWorld (token w2) (cache w2) (S (nowCalls w2)) (doCalls w2)).
Proof.
  intros w w' v E Hsent.
  assert (token w'
          = mkToken (clock env (nowCalls w + 2) + tokenLifetime env) v) as Htok.
  { destruct (getToken_cases w)
      as [(k & _ & _ & E')
         |(_ & _ & [(err & _ & E')|(_ & [(err & E')|(v' & _ & E')])])];
      rewrite E' in E; try discriminate E.
    - injection E as _ <-. cbn in Hsent. exfalso. lia.
    - injection E as <- <-. reflexivity. }
  split; [exact Htok|].
  intros w2 Hw2 Hclock.
  rewrite getToken_valid.
  - rewrite Hw2, Htok. reflexivity.
  - rewrite Hw2, Htok. unfold stillValid. cbn.
    apply Z.ltb_lt. unfold Second in *. lia.
Qed.

(** With a clock that never runs backwards, a call that fails leaves no
    token to return from memory: it returns the empty string, and the next
    call, if it can build its request, asks the metadata service again. *)
Theorem getToken_failure_is_not_kept :
  (forall i j : nat, (i <= j)%nat -> clock env i <= clock env j) ->
  forall (w w' : World) (s : string) (err : error),
    getToken env w = Done (s, Some err) w' ->
    s = ""%string /\
    forall w2 : World,
      token w2 = token w' ->
      (nowCalls w' <= nowCalls w2)%nat ->
      newRequestError env MethodPut tokenURL = None ->
      exists r w3,
        getToken env w2 = Done r w3 /\ doCalls w3 = S (doCalls w2).
Proof.
  intros Hmono w w' s err E.
  assert (s = ""%string /\
          forall k, (nowCalls w' <= k)%nat ->
                    stillValid (clock env k) (token w') = false) as [Hs Hstale].
  { destruct (getToken_cases w)
      as [(k & _ & _ & E')
         |(V1 & V2 & [(err' & _ & E')|(_ & [(err' & E')|(v' & _ & E')])])];
      rewrite E' in E; try discriminate E.
    - injection E as <- _ <-. split; [reflexivity|].
      cbn. intros k Hk. unfold stillValid in *.
      apply Z.ltb_ge. apply Z.ltb_ge in V2.
      pose proof (Hmono (S (nowCalls w)) k ltac:(lia)). lia.
    - injection E as <- _ <-. split; [reflexivity|].
      cbn. intros k Hk. unfold stillValid. cbn.
      apply Z.ltb_ge.
      pose proof (Hmono (nowCalls w + 3)%nat k ltac:(lia)).
      unfold Second. lia. }
  split; [exact Hs|].
  intros w2 Htok Hlater NR.
  destruct (getToken_cases w2)
    as [(k & Hk & V & _)
       |(_ & _ & [(err' & NR' & _)|(_ & [(err' & E')|(v' & _ & E')])])].
  - rewrite Htok, Hstale in V by lia. discriminate V.
  - congruence.
  - rewrite E'. eauto.
  - rewrite E'. eauto.
Qed.

(** *** Requests *)

(** The request [doHTTPRequest] sends and how it reads the answer, once
    the question of the token is settled. *)
Lemma doHTTPRequest_plain :
  forall url method (headers : GoMap) w,
    doHTTPRequest env url method headers false w
    = match newRequestError env method url with
      | Some err => Done (None, Some err) w
      | None =>
          let w' := mkWorld (token w) (cache w) (nowCalls w) (S (doCalls w)) in
          match clientDo env (doCalls w) (metadataTimeout env * Millisecond)
                  {| Method := method; URL := url;
                     Header := bindings headers |} with
          | DoError err => Done (None, Some err) w'
          | DoResponse res =>
              if (StatusCode res =? 200)%Z then Done (Some res, None) w'
              else Done (None,
                         Some ("status code " ++ fmtInt (StatusCode res)
                               ++ " trying to fetch " ++ url)%string) w'
          end
      end.
Proof.
  intros url method headers w. unfold doHTTPRequest.
  destruct (newRequestError env method url); [reflexivity|].
  unfold_m. cbn.
  destruct (clientDo env (doCalls w) _ _) as [err|res]; [reflexivity|].
  destruct (StatusCode res =? 200)%Z; reflexivity.
Qed.

(** With [useToken] set: what the call comes to after [getToken]. *)
Lemma doHTTPRequest_after_token :
  forall (url method : string) (headers : GoMap)
         (w w1 : World) (t : string) (e : option error),
    newRequestError env method url = None ->
    getToken env w = Done (t, e) w1 ->
    doHTTPRequest env url method headers true w
    = match e, headers with
      | Some _, _ => doHTTPRequest env url method headers false w1
      | None, None => Panicked
      | None, Some l =>
          doHTTPRequest env url method
            (Some (mapSet "X-aws-ec2-metadata-token" t l)) false w1
      end.
Proof.
  intros url method headers w w1 t e NR E. unfold doHTTPRequest.
  rewrite NR. unfold bind at 1. unfold bind at 1. rewrite E. cbn.
  destruct e; [reflexivity|]. destruct headers; reflexivity.
Qed.

Lemma mapSet_binds :
  forall key val headers, In (key, val) (mapSet key val headers).
Proof.
  intros key val headers. induction headers as [|[k v] rest IH]; cbn.
  - left. reflexivity.
  - destruct (String.eqb k key); [left; reflexivity|right; exact IH].
Qed.

(** With [useToken] set and headers that are not nil, the request given to
    [client.Do] carries the header X-aws-ec2-metadata-token with the token
    when [getToken] succeeds, and the headers as they were given when
    [getToken] fails: a failure to get a token does not stop the request.
    In both cases the answer of [client.Do] to that very request decides
    the result. *)
Theorem doHTTPRequest_token_header :
  forall (url method : string) (headers : list (string * string))
         (w w1 : World) (t : string),
    newRequestError env method url = None ->
    let sent := mkWorld (token w1) (cache w1) (nowCalls w1) (S (doCalls w1)) in
    let result (r : DoResult) : option Response * option error :=
      match r with
      | DoError err => (None, Some err)
      | DoResponse res =>
          if (StatusCode res =? 200)%Z then (Some res, None)
          else (None, Some ("status code " ++ fmtInt (StatusCode res)
                            ++ " trying to fetch " ++ url)%string)
      end in
    (getToken env w = Done (t, None) w1 ->
     In ("X-aws-ec2-metadata-token"%string, t)
        (mapSet "X-aws-ec2-metadata-token" t headers) /\
     doHTTPRequest env url method (Some headers) true w
     = Done
         (result
            (clientDo env (doCalls w1) (metadataTimeout env * Millisecond)
               {| Method := method; URL := url;
                  Header := mapSet "X-aws-ec2-metadata-token" t headers |}))
         sent)
    /\
    (forall err : error,
       getToken env w = Done (t, Some err) w1 ->
       doHTTPRequest env url method (Some headers) true w
       = Done
           (result
              (clientDo env (doCalls w1) (metadataTimeout env * Millisecond)
                 {| Method := method; URL := url; Header := headers |}))
           sent).
Proof.
  intros url method headers w w1 t NR sent result. split.
  - intros E. split; [apply mapSet_binds|].
    rewrite (doHTTPRequest_after_token _ _ _ _ _ _ None NR E).
    rewrite doHTTPRequest_plain, NR. cbn.
    destruct (clientDo env (doCalls w1) _ _) as [err|res]; [reflexivity|].
    cbn. destruct (StatusCode res =? 200)%Z; reflexivity.
  - intros err E.
    rewrite (doHTTPRequest_after_token _ _ _ _ _ _ (Some err) NR E).
    rewrite doHTTPRequest_plain, NR. cbn.
    destruct (clientDo env (doCalls w1) _ _) as [err'|res]; [reflexivity|].
    cbn. destruct (StatusCode res =? 200)%Z; reflexivity.
Qed.

(** What [doHTTPRequest] returns when it returns. *)
Lemma doHTTPRequest_returns :
  forall url method (headers : GoMap) useToken w r w',
    doHTTPRequest env url method headers useToken w = Done r w' ->
    cache w' = cache w /\
    ((exists res, r = (Some res, None) /\ StatusCode res = 200)
     \/ (exists err, r = (None, Some err))).
Proof.
  assert (forall url method (headers : GoMap) w r w',
           doHTTPRequest env url method headers false w = Done r w' ->
           cache w' = cache w /\
           ((exists res, r = (Some res, None) /\ StatusCode res = 200)
            \/ (exists err, r = (None, Some err)))) as Hplain.
  { intros url method headers w r w' H. rewrite doHTTPRequest_plain in H.
    destruct (newRequestError env method url) as [err|].
    { injection H as <- <-. split; [reflexivity|]. eauto. }
    cbn in H. destruct (clientDo env (doCalls w) _ _) as [err|res].
    { injection H as <- <-. split; [reflexivity|]. eauto. }
    destruct (StatusCode res =? 200)%Z eqn:S200.
    - apply Z.eqb_eq in S200. injection H as <- <-.
      split; [reflexivity|]. eauto.
    - injection H as <- <-. split; [reflexivity|]. eauto. }
  intros url method headers [|] w r w' H; [|apply (Hplain _ _ _ _ _ _ H)].
  destruct (newRequestError env method url) as [err|] eqn:NR.
  { unfold doHTTPRequest in H. rewrite NR in H. injection H as <- <-.
    split; [reflexivity|]. eauto. }
  destruct (getToken_done w) as (t & e & w1 & E & Hc).
  rewrite (doHTTPRequest_after_token url method headers w w1 t e NR E) in H.
  destruct e as [err|]; [|destruct headers as [l|]; [|discriminate H]];
    destruct (Hplain _ _ _ _ _ _ H) as [Hc' Hr];
    (split; [congruence|exact Hr]).
Qed.

(** When [doHTTPRequest] panics. *)
Lemma doHTTPRequest_panics :
  forall url method (headers : GoMap) useToken w,
    doHTTPRequest env url method headers useToken w = Panicked <->
    headers = None /\ useToken = true /\
    newRequestError env method url = None /\
    exists t w1, getToken env w = Done (t, None) w1.
Proof.
  assert (forall url method (headers : GoMap) w,
           doHTTPRequest env url method headers false w <> Panicked) as Hplain.
  { intros url method headers w. rewrite doHTTPRequest_plain.
    destruct (newRequestError env method url); [discriminate|].
    cbn. destruct (clientDo env (doCalls w) _ _) as [err|res]; [discriminate|].
    destruct (StatusCode res =? 200)%Z; discriminate. }
  intros url method headers useToken w. split.
  - intros H. destruct useToken; [|exfalso; apply (Hplain _ _ _ _ H)].
    destruct (newRequestError env method url) as [err|] eqn:NR.
    { unfold doHTTPRequest in H. rewrite NR in H. discriminate H. }
    destruct (getToken_done w) as (t & e & w1 & E & _).
    rewrite (doHTTPRequest_after_token url method headers w w1 t e NR E) in H.
    destruct e as [err|]; [exfalso; apply (Hplain _ _ _ _ H)|].
    destruct headers as [l|]; [exfalso; apply (Hplain _ _ _ _ H)|].
    repeat split. eauto.
  - intros (-> & -> & NR & t & w1 & E).
    rewrite (doHTTPRequest_after_token url method None w w1 t None NR E).
    reflexivity.
Qed.

(** [doHTTPRequest] panics in one case only: the map of headers is nil,
    [useToken] is set, the request can be built and [getToken] succeeds, so
    that the token is assigned to an entry of a nil map.  Whenever it
    returns, it returns either a response or an error, never both and never
    neither; a response it returns has status 200; the cache is left
    alone. *)
Theorem doHTTPRequest_response_or_error :
  forall (url method : string) (headers : GoMap) (useToken : bool) (w : World),
    (doHTTPRequest env url method headers useToken w = Panicked <->
     headers = None /\ useToken = true /\
     newRequestError env method url = None /\
     exists t w1, getToken env w = Done (t, None) w1)
    /\
    (forall r w',
       doHTTPRequest env url method headers useToken w = Done r w' ->
       cache w' = cache w /\
       ((exists res, r = (Some res, None) /\ StatusCode res = 200)
        \/ (exists err, r = (None, Some err)))).
Proof.
  intros url method headers useToken w. split.
  - apply doHTTPRequest_panics.
  - intros r w'. apply doHTTPRequest_returns.
Qed.

(** With headers that are not nil [doHTTPRequest] always returns. *)
Lemma doHTTPRequest_outcome :
  forall url method (headers : list (string * string)) useToken w,
  exists r w',
    doHTTPRequest env url method (Some headers) useToken w = Done r w' /\
    cache w' = cache w /\
    ((exists res, r = (Some res, None) /\ StatusCode res = 200)
     \/ (exists err, r = (None, Some err))).
Proof.
  intros url method headers useToken w.
  destruct (doHTTPRequest env url method (Some headers) useToken w)
    as [r w'|] eqn:E.
  - exists r, w'. split; [reflexivity|].
    apply (doHTTPRequest_returns _ _ _ _ _ _ _ E).
  - apply doHTTPRequest_panics in E. destruct E as (H & _). discriminate H.
Qed.

(** *** Metadata items *)

Lemma getMetadataItem_outcome :
  forall (endpoint : string) (w : World),
  exists s e w',
    getMetadataItem env endpoint w = Done (s, e) w' /\
    cache w' = cache w /\
    (e <> None -> s = ""%string).
Proof.
  intros endpoint w. unfold getMetadataItem.
  destruct (doHTTPRequest_outcome
              (metadataURL ++ endpoint) MethodGet [] (preferIMDSv2 env) w)
    as (r & w' & E & Hc & [(res & -> & _)|(err & ->)]);
    rewrite (bind_done _ _ _ _ _ _ _ E); cbn.
  - destruct (Body res) as [all|err]; unfold ret.
    + exists all, None, w'. repeat split; try assumption. congruence.
    + do 3 eexists. split; [reflexivity|]. split; [assumption|reflexivity].
  - unfold ret. do 3 eexists.
    split; [reflexivity|]. split; [assumption|reflexivity].
Qed.

(** [getMetadataItem] never panics (the response it reads is never nil),
    leaves the cache alone, and returns the empty string with every
    error. *)
Theorem getMetadataItem_never_panics :
  forall (endpoint : string) (w : World),
  exists s e w',
    getMetadataItem env endpoint w = Done (s, e) w' /\
    cache w' = cache w /\
    (e <> None -> s = ""%string).
Proof. exact getMetadataItem_outcome. Qed.

Lemma getMetadataItemWithMaxLength_outcome :
  forall endpoint maxLength w,
  exists s e w',
    getMetadataItemWithMaxLength env endpoint maxLength w = Done (s, e) w' /\
    cache w' = cache w.
Proof.
  intros endpoint maxLength w. unfold getMetadataItemWithMaxLength.
  destruct (getMetadataItem_outcome endpoint w)
    as (s & e & w' & E & Hc & _).
  rewrite (bind_done _ _ _ _ _ _ _ E). cbn.
  destruct e as [err|]; unfold ret; [eauto|].
  destruct (maxLength <? Z.of_nat (String.length s))%Z; eauto.
Qed.

(** An item that [getMetadataItemWithMaxLength] returns without error is
    the item [getMetadataItem] fetched, and it is at most [maxLength] bytes
    long. *)
Theorem getMetadataItemWithMaxLength_bound :
  forall (endpoint : string) (maxLength : Z) (w w' : World) (s : string),
    getMetadataItemWithMaxLength env endpoint maxLength w = Done (s, None) w' ->
    Z.of_nat (String.length s) <= maxLength /\
    getMetadataItem env endpoint w = Done (s, None) w'.
Proof.
  intros endpoint maxLength w w' s H. unfold getMetadataItemWithMaxLength in H.
  destruct (getMetadataItem_outcome endpoint w)
    as (s0 & e0 & w0 & E & _ & _).
  rewrite (bind_done _ _ _ _ _ _ _ E) in H. cbn in H.
  destruct e0 as [err|]; unfold ret in H; [discriminate H|].
  destruct (maxLength <? Z.of_nat (String.length s0))%Z eqn:L;
    [discriminate H|].
  injection H as <- <-. apply Z.ltb_ge in L. split; assumption.
Qed.

(** *** Cached items *)

Lemma GetInstanceID_cachedItem :
  GetInstanceID env = cachedItem env "/instance-id" (instanceIDCacheKey env).
Proof. reflexivity. Qed.

Lemma GetHostname_cachedItem :
  GetHostname env = cachedItem env "/hostname" (hostnameCacheKey env).
Proof. reflexivity. Qed.

Lemma cacheSet_same :
  forall key x c, cacheSet key x c key = Some x.
Proof. intros key x c. unfold cacheSet. rewrite String.eqb_refl. reflexivity. Qed.

Lemma cacheSet_other :
  forall key x c k, k <> key -> cacheSet key x c k = c k.
Proof.
  intros key x c k H. unfold cacheSet.
  apply String.eqb_neq in H. rewrite H. reflexivity.
Qed.

(** [cachedItem], case by case on what the fetch gives and what the cache
    holds. *)
Lemma cachedItem_cases :
  forall endpoint key w,
    cloudProviderEnabled env = true ->
    exists s e w1,
      getMetadataItemWithMaxLength env endpoint (maxHostnameSize env) w
      = Done (s, e) w1 /\
      cache w1 = cache w /\
      cachedItem env endpoint key w
      = match e with
        | None =>
            Done (s, None)
              (mkWorld (token w1) (cacheSet key (anyString s) (cache w1))
                 (nowCalls w1) (doCalls w1))
        | Some err =>
            match cache w key with
            | Some (anyString h) => Done (h, None) w1
            | Some (anyInt _) => Panicked
            | None => Done (""%string, Some err) w1
            end
        end.
Proof.
  intros endpoint key w En.
  destruct (getMetadataItemWithMaxLength_outcome endpoint (maxHostnameSize env) w)
    as (s & e & w1 & E & Hc).
  exists s, e, w1. split; [exact E|]. split; [exact Hc|].
  unfold cachedItem. rewrite En. cbn [negb].
  rewrite (bind_done _ _ _ _ _ _ _ E). cbn.
  destruct e as [err|]; [|reflexivity].
  unfold bind, cacheGetM, ret, panic. rewrite Hc.
  destruct (cache w key) as [[h|z]|]; reflexivity.
Qed.

Lemma cachedItem_success_enabled :
  forall endpoint key w h w',
    cachedItem env endpoint key w = Done (h, None) w' ->
    cloudProviderEnabled env = true.
Proof.
  intros endpoint key w h w' H. unfold cachedItem in H.
  destruct (cloudProviderEnabled env); [reflexivity|]. discriminate H.
Qed.

Lemma cachedItem_sticky :
  forall endpoint key w h w1,
    cachedItem env endpoint key w = Done (h, None) w1 ->
    cache w1 key = Some (anyString h) /\
    forall w2 : World,
      cache w2 key = cache w1 key ->
      exists h' w3,
        cachedItem env endpoint key w2 = Done (h', None) w3 /\
        forall s e w',
          getMetadataItemWithMaxLength env endpoint (maxHostnameSize env) w2
          = Done (s, Some e) w' ->
          h' = h.
Proof.
  intros endpoint key w h w1 H.
  pose proof (cachedItem_success_enabled _ _ _ _ _ H) as En.
  assert (cache w1 key = Some (anyString h)) as Hcached.
  { destruct (cachedItem_cases endpoint key w En) as (s & e & w0 & _ & Hc & E).
    rewrite E in H. destruct e as [err|].
    - destruct (cache w key) as [[h0|z]|] eqn:C; try discriminate H.
      injection H as <- <-. congruence.
    - injection H as <- <-. cbn. apply cacheSet_same. }
  split; [exact Hcached|].
  intros w2 Hw2.
  destruct (cachedItem_cases endpoint key w2 En) as (s & e & w0 & F & Hc & E).
  rewrite E. destruct e as [err|].
  - rewrite Hw2, Hcached. exists h, w0. split; [reflexivity|]. reflexivity.
  - do 2 eexists. split; [reflexivity|].
    intros s' e' w' F'. rewrite F in F'. discriminate F'.
Qed.

(** Once [GetHostname] has succeeded it does not fail again while its
    cache entry stays: the hostname is in the cache, and a later call
    succeeds, with that hostname whenever the metadata service cannot be
    read or answers too long.  The same holds of [GetInstanceID]. *)
Theorem cached_getters_succeed_after_success :
  (forall (w w1 : World) (h : string),
     GetHostname env w = Done (h, None) w1 ->
     cache w1 (hostnameCacheKey env) = Some (anyString h) /\
     forall w2 : World,
       cache w2 (hostnameCacheKey env) = cache w1 (hostnameCacheKey env) ->
       exists h' w3,
         GetHostname env w2 = Done (h', None) w3 /\
         forall s e w',
           getMetadataItemWithMaxLength env "/hostname" (maxHostnameSize env) w2
           = Done (s, Some e) w' ->
           h' = h)
  /\
  (forall (w w1 : World) (i : string),
     GetInstanceID env w = Done (i, None) w1 ->
     cache w1 (instanceIDCacheKey env) = Some (anyString i) /\
     forall w2 : World,
       cache w2 (instanceIDCacheKey env) = cache w1 (instanceIDCacheKey env) ->
       exists i' w3,
         GetInstanceID env w2 = Done (i', None) w3 /\
         forall s e w',
           getMetadataItemWithMaxLength env "/instance-id" (maxHostnameSize env) w2
           = Done (s, Some e) w' ->
           i' = i).
Proof.
  split.
  - intros w w1 h. rewrite GetHostname_cachedItem. apply cachedItem_sticky.
  - intros w w1 i. rewrite GetInstanceID_cachedItem. apply cachedItem_sticky.
Qed.

Lemma cachedItem_panics_iff :
  forall endpoint key w,
    cachedItem env endpoint key w = Panicked <->
    cloudProviderEnabled env = true /\
    (exists s e w1,
       getMetadataItemWithMaxLength env endpoint (maxHostnameSize env) w
       = Done (s, Some e) w1) /\
    (exists z, cache w key = Some (anyInt z)).
Proof.
  intros endpoint key w. split.
  - intros H. destruct (cloudProviderEnabled env) eqn:En.
    + destruct (cachedItem_cases endpoint key w En) as (s & e & w1 & F & _ & E).
      rewrite E in H. destruct e as [err|]; [|discriminate H].
      destruct (cache w key) as [[h|z]|]; try discriminate H.
      split; [reflexivity|]. split; eauto.
    + unfold cachedItem in H. rewrite En in H. discriminate H.
  - intros (En & (s & e & w1 & F) & (z & C)).
    destruct (cachedItem_cases endpoint key w En) as (s' & e' & w1' & F' & _ & E).
    rewrite E. rewrite F in F'. injection F' as <- <- <-.
    rewrite C. reflexivity.
Qed.

(** [GetHostname] panics in one case only: the provider is enabled, the
    hostname cannot be fetched, and the cache holds under the hostname key a
    value that is not a string.  The same holds of [GetInstanceID] and its
    key. *)
Theorem cached_getters_panic_iff :
  forall w : World,
    (GetHostname env w = Panicked <->
     cloudProviderEnabled env = true /\
     (exists s e w1,
        getMetadataItemWithMaxLength env "/hostname" (maxHostnameSize env) w
        = Done (s, Some e) w1) /\
     (exists z, cache w (hostnameCacheKey env) = Some (anyInt z)))
    /\
    (GetInstanceID env w = Panicked <->
     cloudProviderEnabled env = true /\
     (exists s e w1,
        getMetadataItemWithMaxLength env "/instance-id" (maxHostnameSize env) w
        = Done (s, Some e) w1) /\
     (exists z, cache w (instanceIDCacheKey env) = Some (anyInt z))).
Proof.
  intros w. split.
  - rewrite GetHostname_cachedItem. apply cachedItem_panics_iff.
  - rewrite GetInstanceID_cachedItem. apply cachedItem_panics_iff.
Qed.

Lemma cachedItem_frame :
  forall endpoint key w r w',
    cachedItem env endpoint key w = Done r w' ->
    forall k, k <> key -> cache w' k = cache w k.
Proof.
  intros endpoint key w r w' H k Hk.
  destruct (cloudProviderEnabled env) eqn:En.
  - destruct (cachedItem_cases endpoint key w En) as (s & e & w1 & _ & Hc & E).
    rewrite E in H. destruct e as [err|].
    + destruct (cache w key) as [[h|z]|]; try discriminate H;
        injection H as _ <-; congruence.
    + injection H as _ <-. cbn. rewrite cacheSet_other by assumption.
      congruence.
  - unfold cachedItem in H. rewrite En in H. injection H as _ <-. reflexivity.
Qed.

(** [GetHostname] writes to the cache under its own key at most, and so
    does [GetInstanceID]: with two different keys, neither call changes
    what the other one has cached. *)
Theorem cached_getters_keep_other_keys :
  forall (w w' : World) (r : string * option error) (k : string),
    (GetHostname env w = Done r w' ->
     k <> hostnameCacheKey env -> cache w' k = cache w k)
    /\
    (GetInstanceID env w = Done r w' ->
     k <> instanceIDCacheKey env -> cache w' k = cache w k).
Proof.
  intros w w' r k. split; intros H Hk.
  - rewrite GetHostname_cachedItem in H.
    apply (cachedItem_frame _ _ _ _ _ H k Hk).
  - rewrite GetInstanceID_cachedItem in H.
    apply (cachedItem_frame _ _ _ _ _ H k Hk).
Qed.

(** With the cloud provider disabled by configuration every getter fails
    with the same error and does nothing else: no clock reading, no
    request, no change to the token or to the cache; and the agent is not
    taken to run on EC2. *)
Theorem disabled_provider_does_nothing :
  cloudProviderEnabled env = false ->
  forall w : World,
    GetInstanceID env w = Done (""%string, Some disabledError) w /\
    GetHostname env w = Done (""%string, Some disabledError) w /\
    HostnameProvider env w = Done (""%string, Some disabledError) w /\
    GetLocalIPv4 env w = Done (None, Some disabledError) w /\
    GetNetworkID env w = Done (""%string, Some disabledError) w /\
    GetClusterName env w = Done (""%string, Some disabledError) w /\
    IsRunningOn env w = Done false w.
Proof.
  intros En w.
  unfold HostnameProvider, IsRunningOn, GetInstanceID, GetHostname,
    GetLocalIPv4, GetNetworkID, GetClusterName, bind.
  rewrite En. cbn. repeat split.
Qed.

(** *** The network id *)

Lemma setAdd_member :
  forall x s, In x s -> setAdd x s = s.
Proof.
  intros x s H. unfold setAdd.
  assert (existsb (String.eqb x) s = true) as ->; [|reflexivity].
  apply existsb_exists. exists x. split; [assumption|apply String.eqb_refl].
Qed.

Lemma setAdd_new :
  forall x s, ~ In x s -> setAdd x s = s ++ [x].
Proof.
  intros x s H. unfold setAdd.
  destruct (existsb (String.eqb x) s) eqn:E; [|reflexivity].
  exfalso. apply H. apply existsb_exists in E. destruct E as (y & Hy & Exy).
  apply String.eqb_eq in Exy. subst y. assumption.
Qed.

Lemma collect_members :
  forall ids acc,
    (forall x, In x ids -> In x acc) ->
    fold_left (fun s id => setAdd id s) ids acc = acc.
Proof.
  induction ids as [|id ids IH]; cbn; intros acc H; [reflexivity|].
  rewrite setAdd_member by (apply H; left; reflexivity).
  apply IH. intros x Hx. apply H. right. assumption.
Qed.

Lemma collect_extends :
  forall ids acc,
  exists more, fold_left (fun s id => setAdd id s) ids acc = acc ++ more.
Proof.
  induction ids as [|id ids IH]; cbn; intros acc.
  - exists []. rewrite app_nil_r. reflexivity.
  - destruct (IH (setAdd id acc)) as [more E]. rewrite E.
    unfold setAdd. destruct (existsb (String.eqb id) acc).
    + exists more. reflexivity.
    + exists (id :: more). rewrite <- app_assoc. reflexivity.
Qed.

Lemma collect_stranger :
  forall ids acc x,
    In x ids -> ~ In x acc ->
    exists y more,
      fold_left (fun s id => setAdd id s) ids acc = acc ++ y :: more.
Proof.
  induction ids as [|id ids IH]; cbn; intros acc x Hin Hnot; [contradiction|].
  destruct (in_dec string_dec id acc) as [Hid|Hid].
  - rewrite setAdd_member by assumption.
    destruct Hin as [->|Hin]; [contradiction|].
    apply (IH acc x); assumption.
  - rewrite setAdd_new by assumption.
    destruct (collect_extends ids (acc ++ [id])) as [more E].
    rewrite E, <- app_assoc. exists id, more. reflexivity.
Qed.

Section StaticService.

(** A metadata service that answers every request with status 200 and a
    body that depends on the URL only, reached through a package net/http
    that builds every request. *)
Variable site : string -> string.

Hypothesis requests_built :
  forall method url, newRequestError env method url = None.

Hypothesis service_static :
  forall k timeout req,
    clientDo env k timeout req
    = DoResponse {| StatusCode := 200; Body := ReadOk (site (URL req)) |}.

Lemma getMetadataItem_static :
  forall endpoint w,
  exists w', getMetadataItem env endpoint w
             = Done (site (metadataURL ++ endpoint), None) w'.
Proof.
  intros endpoint w. unfold getMetadataItem.
  assert (forall (headers : GoMap) w0,
           doHTTPRequest env (metadataURL ++ endpoint) MethodGet headers false w0
           = Done (Some {| StatusCode := 200;
                           Body := ReadOk (site (metadataURL ++ endpoint)) |},
                   None)
               (mkWorld (token w0) (cache w0) (nowCalls w0) (S (doCalls w0))))
    as Hplain.
  { intros headers w0. rewrite doHTTPRequest_plain, requests_built.
    cbn. rewrite service_static. reflexivity. }
  destruct (preferIMDSv2 env).
  - destruct (getToken_done w) as (t & e & w1 & E & _).
    pose proof (doHTTPRequest_after_token (metadataURL ++ endpoint) MethodGet
                  (Some []) w w1 t e (requests_built _ _) E) as A.
    destruct e as [err|]; rewrite Hplain in A;
      rewrite (bind_done _ _ _ _ _ _ _ A); cbn; eexists; reflexivity.
  - rewrite (bind_done _ _ _ _ _ _ _ (Hplain (Some []) w)). cbn.
    eexists. reflexivity.
Qed.

Lemma collectVpcIDs_static :
  forall macs acc w,
  exists w',
    collectVpcIDs env macs acc w
    = Done (fold_left (fun s id => setAdd id s)
              (map (fun mac =>
                      site (metadataURL ++ "/network/interfaces/macs/"
                            ++ TrimSuffix mac "/" ++ "/vpc-id")%string)
                 (filter (fun mac => negb (String.eqb mac "")) macs))
              acc,
            None) w'.
Proof.
  induction macs as [|mac macs IH]; intros acc w; cbn.
  - eexists. reflexivity.
  - destruct (String.eqb mac "") eqn:E; cbn; [apply IH|].
    destruct (getMetadataItem_static
                ("/network/interfaces/macs/" ++ TrimSuffix mac "/" ++ "/vpc-id")
                w) as [w1 F].
    rewrite (bind_done _ _ _ _ _ _ _ F). cbn. apply IH.
Qed.

(** For an instance whose metadata service answers, the network id is the
    VPC id when all its interfaces report the same one; without an
    interface the call fails, and with two different VPC ids it fails
    too. *)
Theorem GetNetworkID_single_vpc :
  cloudProviderEnabled env = true ->
  forall w : World,
  exists w',
    GetNetworkID env w
    = Done
        (match interfaceVpcIDs env site with
         | [] => (""%string,
                  Some "EC2: GetNetworkID no mac addresses returned"%string)
         | id :: ids =>
             if forallb (String.eqb id) ids then (id, None)
             else (""%string,
                   Some "EC2: GetNetworkID too many mac addresses returned"%string)
         end)
        w'.
Proof.
  intros En w. unfold GetNetworkID. rewrite En. cbn [negb].
  destruct (getMetadataItem_static "/network/interfaces/macs" w) as [w1 F].
  rewrite (bind_done _ _ _ _ _ _ _ F). cbn [snd fst].
  destruct (collectVpcIDs_static
              (Split (TrimSpace env (site (metadataURL ++ "/network/interfaces/macs")))
                 "010") [] w1) as [w2 G].
  rewrite (bind_done _ _ _ _ _ _ _ G). cbn [snd fst].
  fold (interfaceVpcIDs env site).
  destruct (interfaceVpcIDs env site) as [|id ids]; cbn [fold_left].
  - eexists. reflexivity.
  - rewrite (setAdd_new id []) by (intros []). cbn [app].
    destruct (forallb (String.eqb id) ids) eqn:A.
    + rewrite collect_members.
      * eexists. reflexivity.
      * intros x Hx. left.
        rewrite forallb_forall in A. apply String.eqb_eq. apply A. assumption.
    + assert (exists x, In x ids /\ x <> id) as (x & Hx & Hne).
      { apply not_true_iff_false in A.
        destruct (existsb (fun y => negb (String.eqb id y)) ids) eqn:X.
        - apply existsb_exists in X. destruct X as (x & Hx & Hn).
          exists x. split; [assumption|].
          apply negb_true_iff, String.eqb_neq in Hn. congruence.
        - exfalso. apply A. apply forallb_forall. intros y Hy.
          destruct (String.eqb id y) eqn:Y; [reflexivity|].
          assert (existsb (fun y => negb (String.eqb id y)) ids = true) as X'.
          { apply existsb_exists. exists y. rewrite Y. split; [assumption|reflexivity]. }
          congruence. }
      destruct (collect_stranger ids [id] x Hx) as (y & more & ->).
      { intros [->|[]]. apply Hne. reflexivity. }
      cbn. eexists. reflexivity.
Qed.

End StaticService.

End MetadataFacts.

(** *** Concrete runs of the metadata client *)

Lemma getToken_fetched_token_is_reused_witness :
  Ec2Api.getToken Ec2Api.sampleEnv
    (Ec2Api.mkWorld
       (Ec2Api.mkToken (2 * Ec2Api.Second + 21600 * Ec2Api.Second) "token-1")
       (fun _ => None) 3 1)
  = Ec2Api.Done ("token-1"%string, None)
      (Ec2Api.mkWorld
         (Ec2Api.mkToken (2 * Ec2Api.Second + 21600 * Ec2Api.Second) "token-1")
         (fun _ => None) 4 1).
Proof.
  destruct (getToken_fetched_token_is_reused Ec2Api.sampleEnv
              Ec2Api.initialWorld _ "token-1"%string eq_refl eq_refl)
    as [_ H].
  apply (H (Ec2Api.mkWorld
              (Ec2Api.mkToken (2 * Ec2Api.Second + 21600 * Ec2Api.Second) "token-1")
              (fun _ => None) 3 1)).
  - reflexivity.
  - vm_compute. reflexivity.
Defined.

Lemma getToken_failure_is_not_kept_witness :
  exists r w3,
    Ec2Api.getToken Ec2Api.offlineEnv
      (Ec2Api.mkWorld (Ec2Api.mkToken (3 * Ec2Api.Second) "") (fun _ => None) 4 1)
    = Ec2Api.Done r w3 /\
    Ec2Api.doCalls w3 = 2%nat.
Proof.
  assert (forall i j : nat, (i <= j)%nat ->
            Ec2Api.clock Ec2Api.offlineEnv i <= Ec2Api.clock Ec2Api.offlineEnv j)
    as Hmono.
  { intros i j H. cbn. unfold Ec2Api.Second. lia. }
  destruct (getToken_failure_is_not_kept Ec2Api.offlineEnv Hmono
              Ec2Api.initialWorld _ ""%string "connection refused"%string eq_refl)
    as [_ H].
  apply (H (Ec2Api.mkWorld (Ec2Api.mkToken (3 * Ec2Api.Second) "")
              (fun _ => None) 4 1)).
  - reflexivity.
  - cbn. lia.
  - reflexivity.
Defined.

Lemma doHTTPRequest_token_header_witness :
  In ("X-aws-ec2-metadata-token"%string, "token-1"%string)
     (Ec2Api.mapSet "X-aws-ec2-metadata-token" "token-1" []) /\
  Ec2Api.doHTTPRequest Ec2Api.strictEnv
    "http://169.254.169.254/latest/meta-data/hostname" Ec2Api.MethodGet
    (Some []) true Ec2Api.initialWorld
  = Ec2Api.Done
      (Some {| Ec2Api.StatusCode := 200;
               Ec2Api.Body := Ec2Api.ReadOk "ip-10-0-0-1.ec2.internal" |},
       None)
      (Ec2Api.mkWorld
         (Ec2Api.mkToken (2 * Ec2Api.Second + 21600 * Ec2Api.Second) "token-1")
         (fun _ => None) 3 2).
Proof.
  apply (proj1 (doHTTPRequest_token_header Ec2Api.strictEnv
                  "http://169.254.169.254/latest/meta-data/hostname"
                  Ec2Api.MethodGet [] Ec2Api.initialWorld
                  (Ec2Api.mkWorld
                     (Ec2Api.mkToken
                        (2 * Ec2Api.Second + 21600 * Ec2Api.Second) "token-1")
                     (fun _ => None) 3 1)
                  "token-1"%string eq_refl)).
  reflexivity.
Defined.

Lemma doHTTPRequest_response_or_error_witness :
  Ec2Api.doHTTPRequest Ec2Api.sampleEnv
    "http://169.254.169.254/latest/meta-data/hostname" Ec2Api.MethodGet
    None true Ec2Api.initialWorld
  = Ec2Api.Panicked.
Proof.
  apply (proj1 (doHTTPRequest_response_or_error Ec2Api.sampleEnv
                  "http://169.254.169.254/latest/meta-data/hostname"
                  Ec2Api.MethodGet None true Ec2Api.initialWorld)).
  split; [reflexivity|]. split; [reflexivity|]. split; [reflexivity|].
  exists "token-1"%string.
  exists (Ec2Api.mkWorld
            (Ec2Api.mkToken (2 * Ec2Api.Second + 21600 * Ec2Api.Second) "token-1")
            (fun _ => None) 3 1).
  reflexivity.
Defined.

Lemma getMetadataItemWithMaxLength_bound_witness :
  Z.of_nat (String.length "ip-10-0-0-1.ec2.internal") <= 255 /\
  Ec2Api.getMetadataItem Ec2Api.sampleEnv "/hostname" Ec2Api.initialWorld
  = Ec2Api.Done ("ip-10-0-0-1.ec2.internal"%string, None)
      (Ec2Api.mkWorld
         (Ec2Api.mkToken (2 * Ec2Api.Second + 21600 * Ec2Api.Second) "token-1")
         (fun _ => None) 3 2).
Proof.
  apply (getMetadataItemWithMaxLength_bound Ec2Api.sampleEnv "/hostname" 255
           Ec2Api.initialWorld).
  reflexivity.
Defined.

Lemma cached_getters_succeed_after_success_witness :
  exists h' w3,
    Ec2Api.GetHostname Ec2Api.flakyEnv
      (Ec2Api.mkWorld
         (Ec2Api.mkToken (2 * Ec2Api.Second + 21600 * Ec2Api.Second) "token-1")
         (Ec2Api.cacheSet "agent/ec2/GetHostname"
            (Ec2Api.anyString "ip-10-0-0-1.ec2.internal") (fun _ => None))
         3 2)
    = Ec2Api.Done (h', None) w3 /\
    h' = "ip-10-0-0-1.ec2.internal"%string.
Proof.
  destruct (cached_getters_succeed_after_success Ec2Api.flakyEnv) as [H _].
  destruct (H Ec2Api.initialWorld _ "ip-10-0-0-1.ec2.internal"%string eq_refl)
    as [_ H2].
  destruct (H2 (Ec2Api.mkWorld
                  (Ec2Api.mkToken (2 * Ec2Api.Second + 21600 * Ec2Api.Second)
                     "token-1")
                  (Ec2Api.cacheSet "agent/ec2/GetHostname"
                     (Ec2Api.anyString "ip-10-0-0-1.ec2.internal") (fun _ => None))
                  3 2) eq_refl) as (h' & w3 & E & Hfail).
  exists h', w3. split; [exact E|].
  apply (Hfail ""%string "unable to fetch EC2 API, connection refused"%string
           (Ec2Api.mkWorld
              (Ec2Api.mkToken (2 * Ec2Api.Second + 21600 * Ec2Api.Second)
                 "token-1")
              (Ec2Api.cacheSet "agent/ec2/GetHostname"
                 (Ec2Api.anyString "ip-10-0-0-1.ec2.internal") (fun _ => None))
              4 3)).
  reflexivity.
Defined.

Lemma cached_getters_panic_iff_witness :
  Ec2Api.GetHostname Ec2Api.offlineEnv Ec2Api.poisonedWorld = Ec2Api.Panicked.
Proof.
  apply (cached_getters_panic_iff Ec2Api.offlineEnv Ec2Api.poisonedWorld).
  split; [reflexivity|]. split.
  - do 3 eexists. reflexivity.
  - exists 7. reflexivity.
Defined.

Lemma cached_getters_keep_other_keys_witness :
  Ec2Api.cache
    (Ec2Api.mkWorld
       (Ec2Api.mkToken (2 * Ec2Api.Second + 21600 * Ec2Api.Second) "token-1")
       (Ec2Api.cacheSet "agent/ec2/GetInstanceID"
          (Ec2Api.anyString "i-0123456789abcdef0")
          (Ec2Api.cache Ec2Api.poisonedWorld))
       3 2)
    "agent/ec2/GetHostname"%string
  = Ec2Api.cache Ec2Api.poisonedWorld "agent/ec2/GetHostname"%string.
Proof.
  apply (cached_getters_keep_other_keys Ec2Api.sampleEnv Ec2Api.poisonedWorld
           _ ("i-0123456789abcdef0"%string, None) "agent/ec2/GetHostname"%string).
  - reflexivity.
  - cbn. discriminate.
Defined.

Lemma disabled_provider_does_nothing_witness :
  Ec2Api.GetHostname Ec2Api.disabledEnv Ec2Api.initialWorld
  = Ec2Api.Done (""%string, Some Ec2Api.disabledError) Ec2Api.initialWorld /\
  Ec2Api.IsRunningOn Ec2Api.disabledEnv Ec2Api.initialWorld
  = Ec2Api.Done false Ec2Api.initialWorld.
Proof.
  destruct (disabled_provider_does_nothing Ec2Api.disabledEnv eq_refl
              Ec2Api.initialWorld) as (_ & H & _ & _ & _ & _ & R).
  split; assumption.
Defined.

Lemma GetNetworkID_single_vpc_witness :
  exists w',
    Ec2Api.GetNetworkID Ec2Api.sampleEnv Ec2Api.initialWorld
    = Ec2Api.Done ("vpc-1"%string, None) w'.
Proof.
  apply (GetNetworkID_single_vpc Ec2Api.sampleEnv Ec2Api.sampleSite).
  - intros method url. reflexivity.
  - intros k timeout req. reflexivity.
  - reflexivity.
Defined.
